(** * The domain schema of app/models.py

    The program is a SQLModel schema: six string enumerations, the table
    classes with their [Field] declarations, and a few validation-only
    classes.  The embedding keeps the declarations as data, one entry per
    attribute in the order of the source, and gives them the meaning the
    declarations have for the validation layer (type, bound, default) and for
    the persistence layer (primary key, uniqueness, foreign key, nullability).
    Validation and the constructors follow the libraries the classes are built
    on; the insertion of rows and the storage of decimals, which no code of
    the schema file performs, follow the spec and are marked as such. *)

From Stdlib Require Import ZArith Lia.
From stdpp Require Import base option list strings gmap fin_maps.

Local Open Scope string_scope.
Local Open Scope Z_scope.

(** ** Enumerations *)

(** [class E(str, Enum)]: a finite list of members, each with a string value.
    A member of such a class is itself a string equal to its value. *)
Class PyEnum (A : Type) := {
  members : list A;
  value : A → string;
}.

(** [E(s)]: lookup of a member by its value. *)
Definition by_value {A} `{PyEnum A} (s : string) : option A :=
  find (λ m, String.eqb (value m) s) members.

Inductive StudentGrade := GRADE_4 | GRADE_5 | GRADE_6.

Inductive QuestionDifficulty := EASY | MEDIUM | HARD.

Inductive QuestionType := MULTIPLE_CHOICE | TRUE_FALSE | SHORT_ANSWER.

Inductive BadgeType :=
  LEVEL_COMPLETION | STREAK | PERFECT_SCORE | EXPLORER | SCHOLAR.

Inductive MediaType := IMAGE | AUDIO | VIDEO | DOCUMENT | MODEL_3D.

Inductive ARTriggerType := BANKNOTE | STAMP | TEXTBOOK_IMAGE | QR_CODE.

#[export] Instance StudentGrade_enum : PyEnum StudentGrade := {|
  members := [GRADE_4; GRADE_5; GRADE_6];
  value m := match m with
             | GRADE_4 => "4"
             | GRADE_5 => "5"
             | GRADE_6 => "6"
             end |}.

#[export] Instance QuestionDifficulty_enum : PyEnum QuestionDifficulty := {|
  members := [EASY; MEDIUM; HARD];
  value m := match m with
             | EASY => "easy"
             | MEDIUM => "medium"
             | HARD => "hard"
             end |}.

#[export] Instance QuestionType_enum : PyEnum QuestionType := {|
  members := [MULTIPLE_CHOICE; TRUE_FALSE; SHORT_ANSWER];
  value m := match m with
             | MULTIPLE_CHOICE => "multiple_choice"
             | TRUE_FALSE => "true_false"
             | SHORT_ANSWER => "short_answer"
             end |}.

#[export] Instance BadgeType_enum : PyEnum BadgeType := {|
  members := [LEVEL_COMPLETION; STREAK; PERFECT_SCORE; EXPLORER; SCHOLAR];
  value m := match m with
             | LEVEL_COMPLETION => "level_completion"
             | STREAK => "streak"
             | PERFECT_SCORE => "perfect_score"
             | EXPLORER => "explorer"
             | SCHOLAR => "scholar"
             end |}.

#[export] Instance MediaType_enum : PyEnum MediaType := {|
  members := [IMAGE; AUDIO; VIDEO; DOCUMENT; MODEL_3D];
  value m := match m with
             | IMAGE => "image"
             | AUDIO => "audio"
             | VIDEO => "video"
             | DOCUMENT => "document"
             | MODEL_3D => "model_3d"
             end |}.

#[export] Instance ARTriggerType_enum : PyEnum ARTriggerType := {|
  members := [BANKNOTE; STAMP; TEXTBOOK_IMAGE; QR_CODE];
  value m := match m with
             | BANKNOTE => "banknote"
             | STAMP => "stamp"
             | TEXTBOOK_IMAGE => "textbook_image"
             | QR_CODE => "qr_code"
             end |}.

(** The enumeration classes, as they appear in annotations. *)
Inductive EnumClass :=
  | cStudentGrade | cQuestionDifficulty | cQuestionType
  | cBadgeType | cMediaType | cARTriggerType.

(** Whether [E(s)] finds a member, for the class named by [c]. *)
Definition enum_accepts (c : EnumClass) (s : string) : bool :=
  match c with
  | cStudentGrade => bool_decide (is_Some (by_value (A:=StudentGrade) s))
  | cQuestionDifficulty => bool_decide (is_Some (by_value (A:=QuestionDifficulty) s))
  | cQuestionType => bool_decide (is_Some (by_value (A:=QuestionType) s))
  | cBadgeType => bool_decide (is_Some (by_value (A:=BadgeType) s))
  | cMediaType => bool_decide (is_Some (by_value (A:=MediaType) s))
  | cARTriggerType => bool_decide (is_Some (by_value (A:=ARTriggerType) s))
  end.

(** ** Values *)

Inductive digit := d0 | d1 | d2 | d3 | d4 | d5 | d6 | d7 | d8 | d9.

Definition digit_val (d : digit) : Z :=
  match d with
  | d0 => 0 | d1 => 1 | d2 => 2 | d3 => 3 | d4 => 4
  | d5 => 5 | d6 => 6 | d7 => 7 | d8 => 8 | d9 => 9
  end.

(** A finite [decimal.Decimal], as [as_tuple()] shows it: the sign, the
    digits of the coefficient (most significant first) and the exponent. *)
Record decimal := Dec {
  dsign : bool;
  ddigits : list digit;
  dexp : Z;
}.

#[local] Set Warnings "-register-all".

(** JSON payloads ([sa_column=Column(JSON)]). *)
Inductive json :=
  | JNull
  | JBool (b : bool)
  | JInt (n : Z)
  | JStr (s : string)
  | JList (l : list json)
  | JDict (d : list (string * json)).

(** The values an attribute can be given.  A [datetime] is a count of
    microseconds; an enumeration member is its string value. *)
Inductive pyvalue :=
  | VNone
  | VBool (b : bool)
  | VInt (n : Z)
  | VStr (s : string)
  | VDecimal (d : decimal)
  | VDatetime (t : Z)
  | VJson (j : json).

#[export] Instance digit_eq_dec : EqDecision digit.
Proof. solve_decision. Defined.

#[export] Instance decimal_eq_dec : EqDecision decimal.
Proof. solve_decision. Defined.

Definition json_eq_dec : ∀ a b : json, {a = b} + {a ≠ b}.
Proof.
  fix IH 1. intros a b.
  destruct a as [|x|x|x|l|d], b as [|y|y|y|l'|d'];
    try (right; discriminate); try (left; reflexivity).
  - destruct (decide (x = y)) as [->|]; [left|right]; congruence.
  - destruct (decide (x = y)) as [->|]; [left|right]; congruence.
  - destruct (decide (x = y)) as [->|]; [left|right]; congruence.
  - destruct (list_eq_dec (dec:=IH) l l') as [->|]; [left|right]; congruence.
  - assert (∀ p q : string * json, {p = q} + {p ≠ q}) as Hp.
    { intros [k v] [k' v'].
      destruct (decide (k = k')) as [->|]; [|right; congruence].
      destruct (IH v v') as [->|]; [left|right]; congruence. }
    destruct (list_eq_dec (dec:=Hp) d d') as [->|]; [left|right]; congruence.
Defined.

#[export] Instance json_eq_decision : EqDecision json := json_eq_dec.

#[export] Instance pyvalue_eq_dec : EqDecision pyvalue.
Proof. solve_decision. Defined.

(** ** Attribute declarations *)

(** The annotation of an attribute, without its [Optional]. *)
Inductive pytype :=
  | t_int
  | t_str
  | t_bool
  | t_datetime
  | t_Decimal
  | t_enum (c : EnumClass)
  | t_List_str
  | t_List_int
  | t_Dict_str_Any.

Inductive annotation :=
  | Plain (t : pytype)
  | Optional (t : pytype).

(** The keyword arguments of [Field(...)] that occur in the schema.  A bare
    assignment [x: T = v] is [kw_default v]. *)
Inductive field_arg :=
  | kw_default (v : pyvalue)
  | kw_default_factory_utcnow
  | kw_primary_key
  | kw_unique
  | kw_index
  | kw_foreign_key (table column : string)
  | kw_max_length (n : nat)
  | kw_ge (z : Z)
  | kw_le (z : Z)
  | kw_gt (z : Z)
  | kw_max_digits (n : nat)
  | kw_decimal_places (n : nat)
  | kw_sa_column_JSON.

Record field := Fld {
  fname : string;
  fannot : annotation;
  fargs : list field_arg;
}.

(** A class of the schema: [tablename] is [Some] for [table=True]. *)
Record model := Model {
  mname : string;
  tablename : option string;
  fields : list field;
}.

#[export] Instance EnumClass_eq_dec : EqDecision EnumClass.
Proof. solve_decision. Defined.

#[export] Instance pytype_eq_dec : EqDecision pytype.
Proof. solve_decision. Defined.

#[export] Instance annotation_eq_dec : EqDecision annotation.
Proof. solve_decision. Defined.

#[export] Instance field_arg_eq_dec : EqDecision field_arg.
Proof. solve_decision. Defined.

#[export] Instance field_eq_dec : EqDecision field.
Proof. solve_decision. Defined.

#[export] Instance model_eq_dec : EqDecision model.
Proof. solve_decision. Defined.

Definition base_type (a : annotation) : pytype :=
  match a with Plain t | Optional t => t end.

Definition is_optional (a : annotation) : bool :=
  match a with Plain _ => false | Optional _ => true end.

(** The value of a keyword among the arguments of a [Field], if given (a
    keyword occurs at most once in a call). *)
Definition first_arg {A} (f : field_arg → option A) (args : list field_arg) : option A :=
  head (omap f args).

Definition arg_max_length (args : list field_arg) : option nat :=
  first_arg (λ a, match a with kw_max_length n => Some n | _ => None end) args.

Definition arg_ge (args : list field_arg) : option Z :=
  first_arg (λ a, match a with kw_ge z => Some z | _ => None end) args.

Definition arg_le (args : list field_arg) : option Z :=
  first_arg (λ a, match a with kw_le z => Some z | _ => None end) args.

Definition arg_gt (args : list field_arg) : option Z :=
  first_arg (λ a, match a with kw_gt z => Some z | _ => None end) args.

Definition arg_max_digits (args : list field_arg) : option nat :=
  first_arg (λ a, match a with kw_max_digits n => Some n | _ => None end) args.

Definition arg_decimal_places (args : list field_arg) : option nat :=
  first_arg (λ a, match a with kw_decimal_places n => Some n | _ => None end) args.

Definition arg_foreign_key (args : list field_arg) : option (string * string) :=
  first_arg (λ a, match a with kw_foreign_key t c => Some (t, c) | _ => None end) args.

Definition arg_primary_key (args : list field_arg) : bool :=
  existsb (λ a, match a with kw_primary_key => true | _ => false end) args.

Definition arg_unique (args : list field_arg) : bool :=
  existsb (λ a, match a with kw_unique => true | _ => false end) args.

(** The clock: [datetime.utcnow] is called once for each attribute that is
    given its default by it, so a clock gives a reading for each attribute. *)
Definition clock := string → Z.

(** The clock that reads [t] at every call. *)
Definition at_time (t : Z) : clock := λ _, t.

(** What an absent attribute is given: the declared default, the reading
    [now] of the clock for [default_factory=datetime.utcnow], nothing when the
    attribute is required (an [Optional] annotation alone declares no
    default). *)
Definition field_default (now : Z) (args : list field_arg) : option pyvalue :=
  first_arg (λ a, match a with
                  | kw_default v => Some v
                  | kw_default_factory_utcnow => Some (VDatetime now)
                  | _ => None
                  end) args.

(** ** Validation of a value against a declaration *)

Inductive verror :=
  | missing
  | none_not_allowed
  | wrong_type
  | enum_error
  | string_too_long
  | greater_than_equal
  | less_than_equal
  | greater_than
  | decimal_max_digits
  | decimal_max_places
  | decimal_whole_digits.

Definition is_JStr (j : json) : bool := match j with JStr _ => true | _ => false end.
Definition is_JInt (j : json) : bool := match j with JInt _ => true | _ => false end.

(** The value has the annotated type.  No conversion between types is
    attempted: a value of another type is refused. *)
Definition check_type (t : pytype) (v : pyvalue) : option verror :=
  match t, v with
  | t_int, VInt _ => None
  | t_str, VStr _ => None
  | t_bool, VBool _ => None
  | t_datetime, VDatetime _ => None
  | t_Decimal, VDecimal _ => None
  | t_enum c, VStr s => if enum_accepts c s then None else Some enum_error
  | t_enum _, _ => Some enum_error
  | t_List_str, VJson (JList l) => if forallb is_JStr l then None else Some wrong_type
  | t_List_int, VJson (JList l) => if forallb is_JInt l then None else Some wrong_type
  | t_Dict_str_Any, VJson (JDict _) => None
  | _, _ => Some wrong_type
  end.

(** Coefficient of a decimal, from its digits. *)
Definition coefficient (ds : list digit) : Z :=
  fold_left (λ acc d, 10 * acc + digit_val d) ds 0.

Definition digit_of_Z (n : Z) : digit :=
  match n with
  | 0 => d0 | 1 => d1 | 2 => d2 | 3 => d3 | 4 => d4
  | 5 => d5 | 6 => d6 | 7 => d7 | 8 => d8 | _ => d9
  end.

(** Digits of a natural number, most significant first ([fuel] bounds their
    number). *)
Fixpoint digits_of (fuel : nat) (n : Z) : list digit :=
  match fuel with
  | O => []
  | S fuel' =>
      if n <? 10 then [digit_of_Z (n mod 10)]
      else (digits_of fuel' (n / 10) ++ [digit_of_Z (n mod 10)])%list
  end.

(** The arithmetic context that [decimal] starts with: 28 significant
    digits, exponents between [Emin] and [Emax], rounding half to even, no
    clamping, and [Overflow] raised as an exception. *)
Definition context_prec : Z := 28.
Definition Emax : Z := 999999.
Definition Emin : Z := -999999.
Definition Etiny : Z := Emin - context_prec + 1.
Definition Etop : Z := Emax - context_prec + 1.

(** [Decimal._fix]: the value rounded to the context.  A zero keeps its
    exponent, brought within the context.  Any other value with more than
    28 significant digits, or with an exponent below [Etiny], keeps its first
    [digits] digits, rounded half to even (a value with no digit to keep is
    rounded as a single 1 just below the last place kept); when rounding up
    gives a 29th digit the last digit (a zero) is dropped.  [None] is the
    [decimal.Overflow] raised when the result is above the largest
    exponent. *)
Definition fix_context (d : decimal) : option decimal :=
  let c := coefficient (ddigits d) in
  if c =? 0 then
    let new_exp := Z.min (Z.max (dexp d) Etiny) Emax in
    Some (if new_exp =? dexp d then d else Dec (dsign d) [d0] new_exp)
  else
    let exp_min := Z.of_nat (length (ddigits d)) + dexp d - context_prec in
    if Etop <? exp_min then None
    else
      let exp_min := Z.max exp_min Etiny in
      if dexp d <? exp_min then
        let digits := Z.of_nat (length (ddigits d)) + dexp d - exp_min in
        let '(c, k) := if digits <? 0 then (1, 1) else (c, exp_min - dexp d) in
        let q := c / 10 ^ k in
        let rest := c mod 10 ^ k in
        let half := 5 * 10 ^ (k - 1) in
        let up := (half <? rest) || ((rest =? half) && Z.odd q) in
        let coeff := if up then q + 1 else q in
        let '(coeff, exp_min) :=
          if 10 ^ context_prec <=? coeff then (coeff / 10, exp_min + 1)
          else (coeff, exp_min) in
        if Etop <? exp_min then None
        else Some (Dec (dsign d) (digits_of (S (Z.to_nat context_prec)) coeff) exp_min)
      else Some d.

(** A decimal that the context holds as it is: at most 28 digits, and an
    exponent not below [Etiny]. *)
Definition exact_in_context (d : decimal) : bool :=
  (Z.of_nat (length (ddigits d)) <=? context_prec) && (Etiny <=? dexp d).

(** The loop of [Decimal.normalize()]: trailing zero digits move into the
    exponent, as long as the exponent is below [Emax].  The digits are given
    last digit first. *)
Fixpoint strip_zeros (rev_ds : list digit) (exp : Z) : list digit * Z :=
  match rev_ds with
  | d0 :: tl => if exp <? Emax then strip_zeros tl (exp + 1) else (rev_ds, exp)
  | _ => (rev_ds, exp)
  end.

(** [Decimal.normalize()] on a finite value: the value is rounded to the
    context; then zero becomes [0], and otherwise the trailing zeros of the
    coefficient move into the exponent.  [None] is the exception of
    [fix_context]. *)
Definition normalize (d : decimal) : option decimal :=
  match fix_context d with
  | None => None
  | Some dup =>
      if coefficient (ddigits dup) =? 0 then Some (Dec (dsign dup) [d0] 0)
      else
        let '(r, exp) := strip_zeros (rev (ddigits dup)) (dexp dup) in
        Some (Dec (dsign dup) (rev r) exp)
  end.

(** The normalized decimal whose digits are counted; the value as it is
    when [normalize()] raises. *)
Definition measured (d : decimal) : decimal := default d (normalize d).

(** The number of digits and of decimal places that the sign, digits and
    exponent of a decimal show. *)
Definition digit_counts (n : decimal) : nat * nat :=
  let len := length (ddigits n) in
  if 0 <=? dexp n then ((len + Z.to_nat (dexp n))%nat, O)
  else let decimals := Z.to_nat (- dexp n) in (Nat.max len decimals, decimals).

(** A count is over its bound when it is so both in the value as it is
    and in the normalized value. *)
Definition over (count normalized_count bound : nat) : bool :=
  negb (count <=? bound)%nat && negb (normalized_count <=? bound)%nat.

(** The digit checks of a decimal, in the order they are made: all digits,
    decimal places, digits before the decimal point.  The digits and the
    decimal places are counted twice, in the value as it is and in the
    normalized value. *)
Definition check_decimal (md dp : option nat) (d : decimal) : option verror :=
  let '(normalized_digits, normalized_decimals) := digit_counts (measured d) in
  let '(digits, decimals) := digit_counts d in
  if from_option (over digits normalized_digits) false md then Some decimal_max_digits
  else
    match dp with
    | None => None
    | Some p =>
        if over decimals normalized_decimals p then Some decimal_max_places
        else
          match md with
          | None => None
          | Some m =>
              if over (digits - decimals) (normalized_digits - normalized_decimals) (m - p)
              then Some decimal_whole_digits
              else None
          end
    end.

(** The bounds of the declaration that apply to the value's type. *)
Definition check_constraints (args : list field_arg) (v : pyvalue) : option verror :=
  match v with
  | VStr s =>
      match arg_max_length args with
      | Some n => if (String.length s <=? n)%nat then None else Some string_too_long
      | None => None
      end
  | VInt n =>
      if negb (from_option (λ z, z <? n) true (arg_gt args)) then Some greater_than
      else if negb (from_option (λ z, z <=? n) true (arg_ge args)) then Some greater_than_equal
      else if negb (from_option (λ z, n <=? z) true (arg_le args)) then Some less_than_equal
      else None
  | VDecimal d => check_decimal (arg_max_digits args) (arg_decimal_places args) d
  | _ => None
  end.

(** Validation of a supplied value: [None] only where the annotation is
    [Optional]; otherwise the type, then the bounds. *)
Definition validate_value (f : field) (v : pyvalue) : option verror :=
  match v with
  | VNone => if is_optional (fannot f) then None else Some none_not_allowed
  | _ =>
      match check_type (base_type (fannot f)) v with
      | Some e => Some e
      | None => check_constraints (fargs f) v
      end
  end.

(** Keyword arguments and validated instances are maps from attribute names
    to values. *)
Abbreviation row := (gmap string pyvalue).

Inductive result (A : Type) :=
  | Ok (a : A)
  | Err (errors : list (string * verror)).
Arguments Ok {A} a.
Arguments Err {A} errors.

(** One attribute: the supplied value is validated; an absent attribute
    takes its default, which is not validated; the clock is read for this
    attribute. *)
Definition validate_field (now : clock) (f : field) (kwargs : row) : verror + pyvalue :=
  match kwargs !! fname f with
  | Some v => match validate_value f v with Some e => inl e | None => inr v end
  | None =>
      match field_default (now (fname f)) (fargs f) with
      | Some v => inr v
      | None => inl missing
      end
  end.

(** All attributes, collecting every error; names that are not attributes
    of the class are ignored. *)
Fixpoint validate_fields (now : clock) (fs : list field) (kwargs : row)
  : list (string * verror) * row :=
  match fs with
  | [] => ([], ∅)
  | f :: fs' =>
      let '(es, r) := validate_fields now fs' kwargs in
      match validate_field now f kwargs with
      | inl e => ((fname f, e) :: es, r)
      | inr v => (es, <[fname f := v]> r)
      end
  end.

Definition model_validate (now : clock) (m : model) (kwargs : row) : result row :=
  match validate_fields now (fields m) kwargs with
  | ([], r) => Ok r
  | (es, _) => Err es
  end.

(** The constructor of a table class ([table=True]) does not validate: a
    supplied value is taken as it is, an absent attribute takes its default,
    and a required attribute that is absent is left unset.  Names that are
    not attributes of the class are ignored. *)
Fixpoint table_construct (now : clock) (fs : list field) (kwargs : row) : row :=
  match fs with
  | [] => ∅
  | f :: fs' =>
      let r := table_construct now fs' kwargs in
      match kwargs !! fname f with
      | Some v => <[fname f := v]> r
      | None =>
          match field_default (now (fname f)) (fargs f) with
          | Some v => <[fname f := v]> r
          | None => r
          end
      end
  end.

(** Calling a class with keyword arguments: the constructor of a
    validation-only class validates them, the constructor of a table class
    does not. *)
Definition construct (now : clock) (m : model) (kwargs : row) : result row :=
  match tablename m with
  | Some _ => Ok (table_construct now (fields m) kwargs)
  | None => model_validate now m kwargs
  end.

(** ** The schema

    One entry per class and per column attribute, in the order of the
    source.  [Relationship(...)] attributes are navigation properties, not
    columns, and are not listed. *)

Definition User : model := Model "User" (Some "users") [
  Fld "id" (Optional t_int) [kw_default VNone; kw_primary_key];
  Fld "username" (Plain t_str) [kw_max_length 50; kw_unique; kw_index];
  Fld "email" (Plain t_str) [kw_max_length 255; kw_unique; kw_index];
  Fld "full_name" (Plain t_str) [kw_max_length 100];
  Fld "is_teacher" (Plain t_bool) [kw_default (VBool false)];
  Fld "created_at" (Plain t_datetime) [kw_default_factory_utcnow];
  Fld "updated_at" (Plain t_datetime) [kw_default_factory_utcnow]
].

Definition StudentProfile : model := Model "StudentProfile" (Some "student_profiles") [
  Fld "id" (Optional t_int) [kw_default VNone; kw_primary_key];
  Fld "user_id" (Plain t_int) [kw_foreign_key "users" "id"; kw_unique];
  Fld "grade" (Plain (t_enum cStudentGrade)) [];
  Fld "school_name" (Plain t_str) [kw_max_length 200];
  Fld "total_points" (Plain t_int) [kw_default (VInt 0)];
  Fld "current_level" (Plain t_int) [kw_default (VInt 1)];
  Fld "streak_days" (Plain t_int) [kw_default (VInt 0)];
  Fld "last_activity" (Optional t_datetime) [kw_default VNone]
].

Definition TeacherProfile : model := Model "TeacherProfile" (Some "teacher_profiles") [
  Fld "id" (Optional t_int) [kw_default VNone; kw_primary_key];
  Fld "user_id" (Plain t_int) [kw_foreign_key "users" "id"; kw_unique];
  Fld "school_name" (Plain t_str) [kw_max_length 200];
  Fld "certification_number" (Optional t_str) [kw_max_length 50];
  Fld "specialization" (Optional t_str) [kw_max_length 100]
].

Definition LessonPlan : model := Model "LessonPlan" (Some "lesson_plans") [
  Fld "id" (Optional t_int) [kw_default VNone; kw_primary_key];
  Fld "title" (Plain t_str) [kw_max_length 200];
  Fld "description" (Plain t_str) [kw_max_length 1000];
  Fld "grade_level" (Plain (t_enum cStudentGrade)) [];
  Fld "subject" (Plain t_str) [kw_max_length 100];
  Fld "duration_minutes" (Plain t_int) [kw_gt 0];
  Fld "learning_objectives" (Plain t_List_str) [kw_default (VJson (JList [])); kw_sa_column_JSON];
  Fld "curriculum_alignment" (Plain t_Dict_str_Any) [kw_default (VJson (JDict [])); kw_sa_column_JSON];
  Fld "gamification_elements" (Plain t_Dict_str_Any) [kw_default (VJson (JDict [])); kw_sa_column_JSON];
  Fld "created_by_id" (Plain t_int) [kw_foreign_key "teacher_profiles" "id"];
  Fld "created_at" (Plain t_datetime) [kw_default_factory_utcnow];
  Fld "updated_at" (Plain t_datetime) [kw_default_factory_utcnow];
  Fld "is_validated" (Plain t_bool) [kw_default (VBool false)]
].

Definition TeachingMaterial : model := Model "TeachingMaterial" (Some "teaching_materials") [
  Fld "id" (Optional t_int) [kw_default VNone; kw_primary_key];
  Fld "lesson_plan_id" (Plain t_int) [kw_foreign_key "lesson_plans" "id"];
  Fld "title" (Plain t_str) [kw_max_length 200];
  Fld "material_type" (Plain (t_enum cMediaType)) [];
  Fld "file_path" (Plain t_str) [kw_max_length 500];
  Fld "description" (Optional t_str) [kw_max_length 500];
  Fld "display_order" (Plain t_int) [kw_default (VInt 0)];
  Fld "is_validated" (Plain t_bool) [kw_default (VBool false)];
  Fld "created_at" (Plain t_datetime) [kw_default_factory_utcnow]
].

Definition ActivitySheet : model := Model "ActivitySheet" (Some "activity_sheets") [
  Fld "id" (Optional t_int) [kw_default VNone; kw_primary_key];
  Fld "lesson_plan_id" (Plain t_int) [kw_foreign_key "lesson_plans" "id"];
  Fld "title" (Plain t_str) [kw_max_length 200];
  Fld "instructions" (Plain t_str) [kw_max_length 2000];
  Fld "activity_type" (Plain t_str) [kw_max_length 50];
  Fld "estimated_time_minutes" (Plain t_int) [kw_gt 0];
  Fld "materials_needed" (Plain t_List_str) [kw_default (VJson (JList [])); kw_sa_column_JSON];
  Fld "assessment_criteria" (Plain t_Dict_str_Any) [kw_default (VJson (JDict [])); kw_sa_column_JSON];
  Fld "file_path" (Optional t_str) [kw_max_length 500];
  Fld "created_at" (Plain t_datetime) [kw_default_factory_utcnow]
].

Definition HistoricalPeriod : model := Model "HistoricalPeriod" (Some "historical_periods") [
  Fld "id" (Optional t_int) [kw_default VNone; kw_primary_key];
  Fld "name" (Plain t_str) [kw_max_length 100; kw_unique];
  Fld "description" (Plain t_str) [kw_max_length 1000];
  Fld "start_year" (Optional t_int) [kw_default VNone];
  Fld "end_year" (Optional t_int) [kw_default VNone];
  Fld "display_order" (Plain t_int) [kw_default (VInt 0)];
  Fld "background_image" (Optional t_str) [kw_max_length 500]
].

Definition QuizLevel : model := Model "QuizLevel" (Some "quiz_levels") [
  Fld "id" (Optional t_int) [kw_default VNone; kw_primary_key];
  Fld "historical_period_id" (Plain t_int) [kw_foreign_key "historical_periods" "id"];
  Fld "level_number" (Plain t_int) [kw_gt 0];
  Fld "title" (Plain t_str) [kw_max_length 200];
  Fld "description" (Plain t_str) [kw_max_length 500];
  Fld "unlock_points_required" (Plain t_int) [kw_default (VInt 0)];
  Fld "completion_points_reward" (Plain t_int) [kw_gt 0];
  Fld "max_attempts" (Optional t_int) [kw_default (VInt 3)];
  Fld "time_limit_minutes" (Optional t_int) [kw_default VNone]
].

Definition QuizQuestion : model := Model "QuizQuestion" (Some "quiz_questions") [
  Fld "id" (Optional t_int) [kw_default VNone; kw_primary_key];
  Fld "quiz_level_id" (Plain t_int) [kw_foreign_key "quiz_levels" "id"];
  Fld "question_text" (Plain t_str) [kw_max_length 1000];
  Fld "question_type" (Plain (t_enum cQuestionType)) [];
  Fld "difficulty" (Plain (t_enum cQuestionDifficulty)) [];
  Fld "points_value" (Plain t_int) [kw_gt 0; kw_default (VInt 10)];
  Fld "explanation" (Plain t_str) [kw_max_length 1000];
  Fld "media_url" (Optional t_str) [kw_max_length 500];
  Fld "correct_answer" (Plain t_str) [kw_max_length 500];
  Fld "answer_options" (Optional t_List_str) [kw_default (VJson (JList [])); kw_sa_column_JSON];
  Fld "display_order" (Plain t_int) [kw_default (VInt 0)];
  Fld "created_at" (Plain t_datetime) [kw_default_factory_utcnow]
].

Definition QuizAttempt : model := Model "QuizAttempt" (Some "quiz_attempts") [
  Fld "id" (Optional t_int) [kw_default VNone; kw_primary_key];
  Fld "student_id" (Plain t_int) [kw_foreign_key "student_profiles" "id"];
  Fld "quiz_level_id" (Plain t_int) [kw_foreign_key "quiz_levels" "id"];
  Fld "attempt_number" (Plain t_int) [kw_gt 0];
  Fld "started_at" (Plain t_datetime) [kw_default_factory_utcnow];
  Fld "completed_at" (Optional t_datetime) [kw_default VNone];
  Fld "score" (Optional t_int) [kw_default (VInt 0)];
  Fld "total_points_earned" (Plain t_int) [kw_default (VInt 0)];
  Fld "is_completed" (Plain t_bool) [kw_default (VBool false)];
  Fld "is_passed" (Plain t_bool) [kw_default (VBool false)]
].

Definition StudentAnswer : model := Model "StudentAnswer" (Some "student_answers") [
  Fld "id" (Optional t_int) [kw_default VNone; kw_primary_key];
  Fld "quiz_attempt_id" (Plain t_int) [kw_foreign_key "quiz_attempts" "id"];
  Fld "question_id" (Plain t_int) [kw_foreign_key "quiz_questions" "id"];
  Fld "student_answer" (Plain t_str) [kw_max_length 1000];
  Fld "is_correct" (Plain t_bool) [];
  Fld "points_earned" (Plain t_int) [kw_default (VInt 0)];
  Fld "answered_at" (Plain t_datetime) [kw_default_factory_utcnow];
  Fld "time_taken_seconds" (Optional t_int) [kw_default VNone]
].

Definition Badge : model := Model "Badge" (Some "badges") [
  Fld "id" (Optional t_int) [kw_default VNone; kw_primary_key];
  Fld "name" (Plain t_str) [kw_max_length 100; kw_unique];
  Fld "description" (Plain t_str) [kw_max_length 500];
  Fld "badge_type" (Plain (t_enum cBadgeType)) [];
  Fld "icon_url" (Plain t_str) [kw_max_length 500];
  Fld "criteria" (Plain t_Dict_str_Any) [kw_default (VJson (JDict [])); kw_sa_column_JSON];
  Fld "points_reward" (Plain t_int) [kw_default (VInt 0)];
  Fld "is_active" (Plain t_bool) [kw_default (VBool true)]
].

Definition StudentBadge : model := Model "StudentBadge" (Some "student_badges") [
  Fld "id" (Optional t_int) [kw_default VNone; kw_primary_key];
  Fld "student_id" (Plain t_int) [kw_foreign_key "student_profiles" "id"];
  Fld "badge_id" (Plain t_int) [kw_foreign_key "badges" "id"];
  Fld "earned_at" (Plain t_datetime) [kw_default_factory_utcnow];
  Fld "progress_data" (Optional t_Dict_str_Any) [kw_default (VJson (JDict [])); kw_sa_column_JSON]
].

Definition VocabularyTerm : model := Model "VocabularyTerm" (Some "vocabulary_terms") [
  Fld "id" (Optional t_int) [kw_default VNone; kw_primary_key];
  Fld "historical_period_id" (Optional t_int) [kw_foreign_key "historical_periods" "id"];
  Fld "term" (Plain t_str) [kw_max_length 100; kw_index];
  Fld "definition" (Plain t_str) [kw_max_length 2000];
  Fld "pronunciation" (Optional t_str) [kw_max_length 200];
  Fld "audio_url" (Optional t_str) [kw_max_length 500];
  Fld "etymology" (Optional t_str) [kw_max_length 500];
  Fld "usage_example" (Optional t_str) [kw_max_length 1000];
  Fld "difficulty_level" (Plain (t_enum cQuestionDifficulty)) [];
  Fld "grade_level" (Plain (t_enum cStudentGrade)) [];
  Fld "created_at" (Plain t_datetime) [kw_default_factory_utcnow]
].

Definition VocabularyVisual : model := Model "VocabularyVisual" (Some "vocabulary_visuals") [
  Fld "id" (Optional t_int) [kw_default VNone; kw_primary_key];
  Fld "vocabulary_term_id" (Plain t_int) [kw_foreign_key "vocabulary_terms" "id"];
  Fld "media_type" (Plain (t_enum cMediaType)) [];
  Fld "media_url" (Plain t_str) [kw_max_length 500];
  Fld "caption" (Optional t_str) [kw_max_length 500];
  Fld "alt_text" (Plain t_str) [kw_max_length 300];
  Fld "display_order" (Plain t_int) [kw_default (VInt 0)]
].

Definition TermConnection : model := Model "TermConnection" (Some "term_connections") [
  Fld "id" (Optional t_int) [kw_default VNone; kw_primary_key];
  Fld "source_term_id" (Plain t_int) [kw_foreign_key "vocabulary_terms" "id"];
  Fld "target_term_id" (Plain t_int) [kw_foreign_key "vocabulary_terms" "id"];
  Fld "relationship_type" (Plain t_str) [kw_max_length 50];
  Fld "description" (Optional t_str) [kw_max_length 500];
  Fld "strength" (Plain t_int) [kw_default (VInt 1); kw_ge 1; kw_le 5]
].

Definition HistoricalFigure : model := Model "HistoricalFigure" (Some "historical_figures") [
  Fld "id" (Optional t_int) [kw_default VNone; kw_primary_key];
  Fld "historical_period_id" (Optional t_int) [kw_foreign_key "historical_periods" "id"];
  Fld "name" (Plain t_str) [kw_max_length 100; kw_index];
  Fld "birth_year" (Optional t_int) [kw_default VNone];
  Fld "death_year" (Optional t_int) [kw_default VNone];
  Fld "birth_place" (Optional t_str) [kw_max_length 200];
  Fld "occupation" (Optional t_str) [kw_max_length 100];
  Fld "biography_summary" (Plain t_str) [kw_max_length 2000];
  Fld "major_contributions" (Plain t_List_str) [kw_default (VJson (JList [])); kw_sa_column_JSON];
  Fld "famous_quotes" (Plain t_List_str) [kw_default (VJson (JList [])); kw_sa_column_JSON];
  Fld "portrait_url" (Optional t_str) [kw_max_length 500];
  Fld "is_featured" (Plain t_bool) [kw_default (VBool false)];
  Fld "reading_level" (Plain (t_enum cStudentGrade)) [];
  Fld "created_at" (Plain t_datetime) [kw_default_factory_utcnow]
].

Definition DiaryEntry : model := Model "DiaryEntry" (Some "diary_entries") [
  Fld "id" (Optional t_int) [kw_default VNone; kw_primary_key];
  Fld "historical_figure_id" (Plain t_int) [kw_foreign_key "historical_figures" "id"];
  Fld "title" (Plain t_str) [kw_max_length 200];
  Fld "entry_text" (Plain t_str) [kw_max_length 5000];
  Fld "entry_date" (Optional t_datetime) [kw_default VNone];
  Fld "historical_context" (Plain t_str) [kw_max_length 1000];
  Fld "emotional_tone" (Optional t_str) [kw_max_length 50];
  Fld "display_order" (Plain t_int) [kw_default (VInt 0)];
  Fld "is_fictional" (Plain t_bool) [kw_default (VBool true)];
  Fld "sources" (Optional t_List_str) [kw_default (VJson (JList [])); kw_sa_column_JSON];
  Fld "created_at" (Plain t_datetime) [kw_default_factory_utcnow]
].

Definition TimelineEvent : model := Model "TimelineEvent" (Some "timeline_events") [
  Fld "id" (Optional t_int) [kw_default VNone; kw_primary_key];
  Fld "historical_figure_id" (Plain t_int) [kw_foreign_key "historical_figures" "id"];
  Fld "title" (Plain t_str) [kw_max_length 200];
  Fld "description" (Plain t_str) [kw_max_length 1000];
  Fld "event_date" (Optional t_datetime) [kw_default VNone];
  Fld "event_year" (Optional t_int) [kw_default VNone];
  Fld "importance_level" (Plain t_int) [kw_default (VInt 1); kw_ge 1; kw_le 5];
  Fld "location" (Optional t_str) [kw_max_length 200];
  Fld "display_order" (Plain t_int) [kw_default (VInt 0)]
].

Definition FigureMultimedia : model := Model "FigureMultimedia" (Some "figure_multimedia") [
  Fld "id" (Optional t_int) [kw_default VNone; kw_primary_key];
  Fld "historical_figure_id" (Plain t_int) [kw_foreign_key "historical_figures" "id"];
  Fld "media_type" (Plain (t_enum cMediaType)) [];
  Fld "media_url" (Plain t_str) [kw_max_length 500];
  Fld "title" (Plain t_str) [kw_max_length 200];
  Fld "description" (Optional t_str) [kw_max_length 500];
  Fld "source_attribution" (Optional t_str) [kw_max_length 300];
  Fld "display_order" (Plain t_int) [kw_default (VInt 0)];
  Fld "is_primary" (Plain t_bool) [kw_default (VBool false)]
].

Definition HeroDiaryProgress : model := Model "HeroDiaryProgress" (Some "hero_diary_progress") [
  Fld "id" (Optional t_int) [kw_default VNone; kw_primary_key];
  Fld "student_id" (Plain t_int) [kw_foreign_key "student_profiles" "id"];
  Fld "historical_figure_id" (Plain t_int) [kw_foreign_key "historical_figures" "id"];
  Fld "entries_read" (Plain t_int) [kw_default (VInt 0)];
  Fld "total_entries" (Plain t_int) [kw_default (VInt 0)];
  Fld "completion_percentage" (Plain t_Decimal) [kw_default (VDecimal (Dec false [d0] 0)); kw_max_digits 5; kw_decimal_places 2];
  Fld "last_accessed" (Plain t_datetime) [kw_default_factory_utcnow];
  Fld "favorite_entries" (Plain t_List_int) [kw_default (VJson (JList [])); kw_sa_column_JSON];
  Fld "notes" (Optional t_str) [kw_max_length 2000]
].

Definition ARTrigger : model := Model "ARTrigger" (Some "ar_triggers") [
  Fld "id" (Optional t_int) [kw_default VNone; kw_primary_key];
  Fld "trigger_type" (Plain (t_enum cARTriggerType)) [];
  Fld "trigger_name" (Plain t_str) [kw_max_length 100];
  Fld "description" (Plain t_str) [kw_max_length 500];
  Fld "recognition_data" (Plain t_Dict_str_Any) [kw_default (VJson (JDict [])); kw_sa_column_JSON];
  Fld "is_active" (Plain t_bool) [kw_default (VBool true)];
  Fld "created_at" (Plain t_datetime) [kw_default_factory_utcnow]
].

Definition ARModel : model := Model "ARModel" (Some "ar_models") [
  Fld "id" (Optional t_int) [kw_default VNone; kw_primary_key];
  Fld "historical_figure_id" (Optional t_int) [kw_foreign_key "historical_figures" "id"];
  Fld "model_name" (Plain t_str) [kw_max_length 100];
  Fld "model_file_path" (Plain t_str) [kw_max_length 500];
  Fld "texture_file_path" (Optional t_str) [kw_max_length 500];
  Fld "animation_file_path" (Optional t_str) [kw_max_length 500];
  Fld "scale_factor" (Plain t_Decimal) [kw_default (VDecimal (Dec false [d1; d0] (-1))); kw_max_digits 5; kw_decimal_places 3];
  Fld "animation_triggers" (Plain t_List_str) [kw_default (VJson (JList [])); kw_sa_column_JSON];
  Fld "interaction_points" (Plain t_Dict_str_Any) [kw_default (VJson (JDict [])); kw_sa_column_JSON];
  Fld "file_size_mb" (Optional t_Decimal) [kw_max_digits 8; kw_decimal_places 2];
  Fld "created_at" (Plain t_datetime) [kw_default_factory_utcnow]
].

Definition ARExperience : model := Model "ARExperience" (Some "ar_experiences") [
  Fld "id" (Optional t_int) [kw_default VNone; kw_primary_key];
  Fld "ar_trigger_id" (Plain t_int) [kw_foreign_key "ar_triggers" "id"];
  Fld "ar_model_id" (Plain t_int) [kw_foreign_key "ar_models" "id"];
  Fld "experience_name" (Plain t_str) [kw_max_length 100];
  Fld "description" (Plain t_str) [kw_max_length 500];
  Fld "interactive_elements" (Plain t_Dict_str_Any) [kw_default (VJson (JDict [])); kw_sa_column_JSON];
  Fld "storytelling_content" (Plain t_Dict_str_Any) [kw_default (VJson (JDict [])); kw_sa_column_JSON];
  Fld "audio_narration_url" (Optional t_str) [kw_max_length 500];
  Fld "duration_seconds" (Optional t_int) [kw_default VNone];
  Fld "grade_level" (Plain (t_enum cStudentGrade)) [];
  Fld "is_active" (Plain t_bool) [kw_default (VBool true)]
].

Definition ARSession : model := Model "ARSession" (Some "ar_sessions") [
  Fld "id" (Optional t_int) [kw_default VNone; kw_primary_key];
  Fld "student_id" (Optional t_int) [kw_foreign_key "student_profiles" "id"];
  Fld "ar_experience_id" (Plain t_int) [kw_foreign_key "ar_experiences" "id"];
  Fld "session_start" (Plain t_datetime) [kw_default_factory_utcnow];
  Fld "session_end" (Optional t_datetime) [kw_default VNone];
  Fld "duration_seconds" (Optional t_int) [kw_default VNone];
  Fld "interactions_count" (Plain t_int) [kw_default (VInt 0)];
  Fld "completion_status" (Plain t_str) [kw_default (VStr "started")];
  Fld "device_info" (Optional t_Dict_str_Any) [kw_default (VJson (JDict [])); kw_sa_column_JSON]
].

Definition UserCreate : model := Model "UserCreate" None [
  Fld "username" (Plain t_str) [kw_max_length 50];
  Fld "email" (Plain t_str) [kw_max_length 255];
  Fld "full_name" (Plain t_str) [kw_max_length 100];
  Fld "is_teacher" (Plain t_bool) [kw_default (VBool false)]
].

Definition StudentCreate : model := Model "StudentCreate" None [
  Fld "grade" (Plain (t_enum cStudentGrade)) [];
  Fld "school_name" (Plain t_str) [kw_max_length 200]
].

Definition TeacherCreate : model := Model "TeacherCreate" None [
  Fld "school_name" (Plain t_str) [kw_max_length 200];
  Fld "certification_number" (Optional t_str) [kw_max_length 50];
  Fld "specialization" (Optional t_str) [kw_max_length 100]
].

Definition QuizAttemptCreate : model := Model "QuizAttemptCreate" None [
  Fld "quiz_level_id" (Plain t_int) []
].

Definition StudentAnswerCreate : model := Model "StudentAnswerCreate" None [
  Fld "question_id" (Plain t_int) [];
  Fld "student_answer" (Plain t_str) [kw_max_length 1000]
].

Definition VocabularyTermCreate : model := Model "VocabularyTermCreate" None [
  Fld "historical_period_id" (Optional t_int) [kw_default VNone];
  Fld "term" (Plain t_str) [kw_max_length 100];
  Fld "definition" (Plain t_str) [kw_max_length 2000];
  Fld "pronunciation" (Optional t_str) [kw_max_length 200];
  Fld "difficulty_level" (Plain (t_enum cQuestionDifficulty)) [];
  Fld "grade_level" (Plain (t_enum cStudentGrade)) []
].

Definition HeroDiaryProgressUpdate : model := Model "HeroDiaryProgressUpdate" None [
  Fld "entries_read" (Optional t_int) [kw_default VNone];
  Fld "notes" (Optional t_str) [kw_max_length 2000];
  Fld "favorite_entries" (Optional t_List_int) [kw_default VNone]
].

Definition ARSessionCreate : model := Model "ARSessionCreate" None [
  Fld "ar_experience_id" (Plain t_int) [];
  Fld "device_info" (Optional t_Dict_str_Any) [kw_default VNone]
].

Definition schema : list model := [
  User;
  StudentProfile;
  TeacherProfile;
  LessonPlan;
  TeachingMaterial;
  ActivitySheet;
  HistoricalPeriod;
  QuizLevel;
  QuizQuestion;
  QuizAttempt;
  StudentAnswer;
  Badge;
  StudentBadge;
  VocabularyTerm;
  VocabularyVisual;
  TermConnection;
  HistoricalFigure;
  DiaryEntry;
  TimelineEvent;
  FigureMultimedia;
  HeroDiaryProgress;
  ARTrigger;
  ARModel;
  ARExperience;
  ARSession;
  UserCreate;
  StudentCreate;
  TeacherCreate;
  QuizAttemptCreate;
  StudentAnswerCreate;
  VocabularyTermCreate;
  HeroDiaryProgressUpdate;
  ARSessionCreate
].

(** Lookup of a declaration by name. *)
Definition get_field (m : model) (name : string) : option field :=
  find (λ f, String.eqb (fname f) name) (fields m).

(** ** Persistence: tables and their constraints *)

(** A database maps a table name to its rows, oldest first. *)
Abbreviation database := (gmap string (list row)).

Definition table_rows (db : database) (t : string) : list row :=
  default [] (db !! t).

(** The non-null values of a column. *)
Definition column (col : string) (rows : list row) : list pyvalue :=
  omap (λ r : row, match r !! col with
                   | Some VNone | None => None
                   | Some v => Some v
                   end) rows.

(** Columns whose values may not repeat. *)
Definition is_key (f : field) : bool :=
  arg_primary_key (fargs f) || arg_unique (fargs f).

(** A column is nullable where the annotation is [Optional], a primary key
    apart. *)
Definition nullable (f : field) : bool :=
  is_optional (fannot f) && negb (arg_primary_key (fargs f)).

(** The row has every column of the class, each value within its
    declaration, and no null outside a nullable column. *)
Definition cell_ok (f : field) (r : row) : bool :=
  match r !! fname f with
  | Some VNone => nullable f
  | Some v => bool_decide (validate_value f v = None)
  | None => false
  end.

Definition row_ok (m : model) (r : row) : bool :=
  forallb (λ f, cell_ok f r) (fields m).

(** A foreign key is null or names an existing row of the referenced table. *)
Definition fk_ok (db : database) (r : row) (f : field) : bool :=
  match arg_foreign_key (fargs f) with
  | None => true
  | Some (t, c) =>
      match r !! fname f with
      | Some VNone | None => true
      | Some v => bool_decide (v ∈ column c (table_rows db t))
      end
  end.

Definition keys_ok (m : model) (rows : list row) : bool :=
  forallb (λ f, negb (is_key f) || bool_decide (NoDup (column (fname f) rows)))
          (fields m).

Definition table_ok (db : database) (m : model) : bool :=
  match tablename m with
  | None => true
  | Some t =>
      let rows := table_rows db t in
      forallb (row_ok m) rows
      && keys_ok m rows
      && forallb (λ r, forallb (fk_ok db r) (fields m)) rows
  end.

(** The state satisfies every constraint the schema declares. *)
Definition db_ok (db : database) : bool := forallb (table_ok db) schema.

(** Modelled from the spec: the insertion of a row, which belongs to the
    persistence layer and is not part of the schema file.  The spec gives
    every entity "a surrogate integer identifier" and has all entities
    "created via insertion".  The next identifier of a table is one more
    than the largest in use. *)
Definition next_id (rows : list row) : Z :=
  1 + foldr Z.max 0
        (omap (λ r : row, match r !! "id" with Some (VInt n) => Some n | _ => None end) rows).

(** Modelled from the spec: a null primary key is assigned by the table on
    insertion. *)
Definition assign_id (m : model) (rows : list row) (r : row) : row :=
  match find (λ f, arg_primary_key (fargs f)) (fields m) with
  | Some f =>
      match r !! fname f with
      | Some VNone | None => <[fname f := VInt (next_id rows)]> r
      | Some _ => r
      end
  | None => r
  end.

(** Modelled from the spec: uniqueness is checked on insertion; the value
    of a key column of the new row is not in use. *)
Definition key_free (rows : list row) (r : row) (f : field) : bool :=
  negb (is_key f)
  || match r !! fname f with
     | Some VNone | None => true
     | Some v => bool_decide (v ∉ column (fname f) rows)
     end.

Inductive create_error :=
  | not_a_table
  | validation_error (errors : list (string * verror))
  | integrity_error.

(** Modelled from the spec: the insertion of an entity.  In the spec a
    value "violating a documented bound ... must be rejected before
    persistence", and "constraint violations (uniqueness, foreign-key,
    bounds) are expected to surface as persistence-layer errors".  So the
    arguments are validated, the identifier is assigned, the uniqueness and
    foreign-key constraints of the table are checked, and the row is
    appended.  The schema file itself only declares the constraints: what a
    particular engine or mapper does beyond this (an engine that leaves
    foreign keys unchecked, a column default stored in place of a null,
    integers beyond the engine's range, an instance built by [construct] and
    added without validation) is not part of this definition. *)
Definition create (now : clock) (db : database) (m : model) (kwargs : row)
  : create_error + database :=
  match tablename m with
  | None => inl not_a_table
  | Some t =>
      match model_validate now m kwargs with
      | Err es => inl (validation_error es)
      | Ok r =>
          let rows := table_rows db t in
          let r' := assign_id m rows r in
          if row_ok m r'
             && forallb (key_free rows r') (fields m)
             && forallb (fk_ok db r') (fields m)
          then inr (<[t := (rows ++ [r'])%list]> db)
          else inl integrity_error
      end
  end.

(** Modelled from the spec: the states built from the empty database by
    insertions. *)
Inductive reachable : database → Prop :=
  | reach_empty : reachable ∅
  | reach_create now db m kwargs db' :
      reachable db → m ∈ schema → create now db m kwargs = inr db' →
      reachable db'.

(** ** Fixed-point storage of a decimal column *)

Definition signed_coefficient (d : decimal) : Z :=
  if dsign d then - coefficient (ddigits d) else coefficient (ddigits d).

(** Equality of decimals is equality of the numbers they denote. *)
Definition decimal_eqb (a b : decimal) : bool :=
  let e := Z.min (dexp a) (dexp b) in
  signed_coefficient a * 10 ^ (dexp a - e) =? signed_coefficient b * 10 ^ (dexp b - e).

(** Modelled from the spec: the store and load of a decimal column, which
    belong to the persistence engine and are not part of the schema file.
    A column declared with [max_digits=p, decimal_places=s] keeps a number as
    a whole count of units of 10^-s with at most [p] digits; a number that is
    not such a count is refused. *)
Definition store_decimal (p s : nat) (d : decimal) : option Z :=
  let k := dexp d + Z.of_nat s in
  let c := signed_coefficient d in
  let units :=
    if 0 <=? k then Some (c * 10 ^ k)
    else if c mod 10 ^ (- k) =? 0 then Some (c / 10 ^ (- k)) else None in
  match units with
  | Some u => if Z.abs u <? 10 ^ Z.of_nat p then Some u else None
  | None => None
  end.

(** Modelled from the spec: what is read back has exactly [s] decimal places. *)
Definition load_decimal (p s : nat) (units : Z) : decimal :=
  Dec (units <? 0) (digits_of (S p) (Z.abs units)) (- Z.of_nat s).

(** Trailing zero digits, dropped and counted, however many there are (the
    digits are given last digit first). *)
Fixpoint trailing_zeros (rev_ds : list digit) : nat * list digit :=
  match rev_ds with
  | d0 :: tl => let '(k, r) := trailing_zeros tl in (S k, r)
  | _ => (O, rev_ds)
  end.

(** A decimal written without its trailing zeros, no digit rounded away;
    zero is written [0]. *)
Definition strip_trailing (d : decimal) : decimal :=
  let '(k, r) := trailing_zeros (rev (ddigits d)) in
  match r with
  | [] => Dec (dsign d) [d0] 0
  | _ => Dec (dsign d) (rev r) (dexp d + Z.of_nat k)
  end.

(** In the words of the spec, a value within the precision of a column of at
    most [p] digits with [s] decimal places: written without trailing zeros
    it has at most [p] digits, at most [s] of them after the decimal point
    and at most [p - s] before it. *)
Definition within_precision (p s : nat) (d : decimal) : bool :=
  let '(digits, decimals) := digit_counts (strip_trailing d) in
  (digits <=? p)%nat && (decimals <=? s)%nat && (digits - decimals <=? p - s)%nat.

(** ** Sample inputs *)

Definition kw (l : list (string * pyvalue)) : row := list_to_map l.

Definition connection_kwargs (strength : pyvalue) : row :=
  kw [("source_term_id", VInt 1); ("target_term_id", VInt 1);
      ("relationship_type", VStr "related_to"); ("description", VNone);
      ("strength", strength)].

Definition event_kwargs (importance : pyvalue) : row :=
  kw [("historical_figure_id", VInt 1); ("title", VStr "Proklamasi");
      ("description", VStr "17 Agustus 1945"); ("location", VNone);
      ("importance_level", importance)].

Definition user_kwargs (username : string) : row :=
  kw [("username", VStr username); ("email", VStr "a@x.com");
      ("full_name", VStr "Ana")].

Definition student_kwargs (grade : string) : row :=
  kw [("user_id", VInt 1); ("grade", VStr grade); ("school_name", VStr "SDN 1")].

Definition teacher_kwargs : row :=
  kw [("user_id", VInt 1); ("school_name", VStr "SDN 1");
      ("certification_number", VNone); ("specialization", VNone)].

Definition term_kwargs : row :=
  kw [("historical_period_id", VNone); ("term", VStr "prasasti");
      ("definition", VStr "batu bertulis"); ("pronunciation", VNone);
      ("audio_url", VNone); ("etymology", VNone); ("usage_example", VNone);
      ("difficulty_level", VStr "easy"); ("grade_level", VStr "4")].


Definition level_kwargs (extra : list (string * pyvalue)) : row :=
  kw ([("historical_period_id", VInt 1); ("level_number", VInt 1);
       ("title", VStr "Level 1"); ("description", VStr "Kerajaan kuno");
       ("completion_points_reward", VInt 10)] ++ extra)%list.

Definition period_kwargs : row :=
  kw [("name", VStr "Hindu-Buddha"); ("description", VStr "Kerajaan kuno");
      ("background_image", VNone)].

(** Whether a validation succeeded, and the instance it gave. *)
Definition is_Ok (res : result row) : bool :=
  match res with Ok _ => true | Err _ => false end.

Definition accepted (res : result row) : row :=
  match res with Ok r => r | Err _ => ∅ end.

(** A run of [create] calls from the empty database; the first failure
    stops the run. *)
Fixpoint create_all (now : clock) (db : database) (steps : list (model * row))
  : create_error + database :=
  match steps with
  | [] => inr db
  | (m, kwargs) :: rest =>
      match create now db m kwargs with
      | inr db' => create_all now db' rest
      | inl e => inl e
      end
  end.

Definition succeeded (res : create_error + database) : bool :=
  match res with inr _ => true | inl _ => false end.

Definition run (steps : list (model * row)) : database :=
  match create_all (at_time 0) ∅ steps with inr db => db | inl _ => ∅ end.

(** The [i]-th row of a table (the empty row when there is none). *)
Definition row_at (db : database) (t : string) (i : nat) : row :=
  default ∅ (table_rows db t !! i).

(** A user holding a student profile and a teacher profile. *)
Definition both_profiles_db : database :=
  run [(User, user_kwargs "ana"); (StudentProfile, student_kwargs "4");
       (TeacherProfile, teacher_kwargs)].

(** A vocabulary term connected to itself. *)
Definition self_loop_db : database :=
  run [(VocabularyTerm, term_kwargs); (TermConnection, connection_kwargs (VInt 3))].

(** A state holding one period and one quiz level of it, the level with a
    null attempt limit; both rows carry the identifier 1. *)
Definition unlimited_level_db : database :=
  <["historical_periods" :=
      [<["id" := VInt 1]>
         (accepted (model_validate (at_time 0) HistoricalPeriod period_kwargs))]]>
    (<["quiz_levels" :=
         [<["id" := VInt 1]>
            (accepted (model_validate (at_time 0) QuizLevel
                         (level_kwargs [("max_attempts", VNone)])))]]> ∅).

(** ** Attributes and value sets the properties name *)

(** The round trip of an enumeration: serialising a member and parsing
    the string gives the member back, whatever parses was the value of the
    member found, and the values of the members are [vals]. *)
Definition round_trips (A : Type) `{PyEnum A} (vals : list string) : Prop :=
  (∀ m : A, by_value (value m) = Some m)
  ∧ (∀ (s : string) (m : A), by_value s = Some m → value m = s)
  ∧ value <$> members (A:=A) = vals.

(** The value sets of the interface contract. *)
Definition contract_values (c : EnumClass) : list string :=
  match c with
  | cStudentGrade => ["4"; "5"; "6"]
  | cQuestionDifficulty => ["easy"; "medium"; "hard"]
  | cQuestionType => ["multiple_choice"; "true_false"; "short_answer"]
  | cBadgeType => ["level_completion"; "streak"; "perfect_score"; "explorer"; "scholar"]
  | cMediaType => ["image"; "audio"; "video"; "document"; "model_3d"]
  | cARTriggerType => ["banknote"; "stamp"; "textbook_image"; "qr_code"]
  end.

(** The two attributes declared with [ge=1, le=5]. *)
Definition bounded_levels : list (model * string) :=
  [(TermConnection, "strength"); (TimelineEvent, "importance_level")].

(** Fifty-two characters. *)
Definition long_username : string :=
  "abcdefghijklmnopqrstuvwxyzabcdefghijklmnopqrstuvwxyz".


(** The attempt limit of a quiz level. *)
Definition max_attempts : field :=
  Fld "max_attempts" (Optional t_int) [kw_default (VInt 3)].

(** The foreign key of both profile classes. *)
Definition user_id : field :=
  Fld "user_id" (Plain t_int) [kw_foreign_key "users" "id"; kw_unique].

(** Membership in a list that is written out. *)
Ltac elem_here :=
  repeat first [ apply list_elem_of_here | apply list_elem_of_further ].

Ltac in_schema :=
  repeat (apply Forall_cons; split; [unfold schema; simpl; elem_here|]);
  apply Forall_nil_2.


(** ** Notions about the schema as a whole *)

(** The position of a table in the order of declaration. *)
Definition table_index (t : string) : option nat :=
  fst <$> list_find (λ m, tablename m = Some t) schema.

(** The attributes of a class declared [primary_key=True]. *)
Definition primary_keys (m : model) : list field :=
  filter (λ f, arg_primary_key (fargs f) = true) (fields m).

(** The validation-only classes, each with the table class whose
    attributes it carries. *)
Definition create_shapes : list (model * model) :=
  [(UserCreate, User); (StudentCreate, StudentProfile);
   (TeacherCreate, TeacherProfile); (QuizAttemptCreate, QuizAttempt);
   (StudentAnswerCreate, StudentAnswer);
   (VocabularyTermCreate, VocabularyTerm);
   (HeroDiaryProgressUpdate, HeroDiaryProgress); (ARSessionCreate, ARSession)].

(** The keyword of [Field] that gives an attribute its default, if any. *)
Definition is_default_arg (a : field_arg) : bool :=
  match a with
  | kw_default _ | kw_default_factory_utcnow => true
  | _ => false
  end.

(** Whether the foreign key of an attribute names the primary key, of the
    same type, of a table declared before the attribute's own. *)
Definition fk_resolves (m : model) (f : field) : bool :=
  match arg_foreign_key (fargs f) with
  | None => true
  | Some (t, c) =>
      match tablename m ≫= table_index,
            list_find (λ m', tablename m' = Some t) schema with
      | Some i, Some (j, m') =>
          (j <? i)%nat
          && existsb (λ pk, String.eqb (fname pk) c
                            && bool_decide (base_type (fannot pk) = base_type (fannot f)))
                     (primary_keys m')
      | _, _ => false
      end
  end.

(** Two declarations with the same type and the same bounds. *)
Definition same_bounds (f f' : field) : bool :=
  bool_decide (base_type (fannot f) = base_type (fannot f'))
  && bool_decide (arg_max_length (fargs f) = arg_max_length (fargs f'))
  && bool_decide (arg_gt (fargs f) = arg_gt (fargs f'))
  && bool_decide (arg_ge (fargs f) = arg_ge (fargs f'))
  && bool_decide (arg_le (fargs f) = arg_le (fargs f'))
  && bool_decide (arg_max_digits (fargs f) = arg_max_digits (fargs f'))
  && bool_decide (arg_decimal_places (fargs f) = arg_decimal_places (fargs f')).


(** A clock that has moved on between the reading for [created_at] and the
    one for [updated_at]. *)
Definition two_readings : clock :=
  λ a, if String.eqb a "updated_at" then 1 else 0.

(** * Properties *)

(** ** Validation of a class, attribute by attribute *)

Section validation.
Context (now : clock) (kwargs : row).

Lemma validate_fields_lookup fs r f :
  NoDup (fname <$> fs) →
  validate_fields now fs kwargs = ([], r) → f ∈ fs →
  ∃ v, validate_field now f kwargs = inr v ∧ r !! fname f = Some v.
Proof.
  revert r. induction fs as [|f0 fs IH]; intros r Hnd Hv Hin.
  - by apply elem_of_nil in Hin.
  - simpl in Hv, Hnd. apply NoDup_cons in Hnd as [Hfresh Hnd].
    destruct (validate_fields now fs kwargs) as [es r'] eqn:Hfs.
    destruct (validate_field now f0 kwargs) as [e|v] eqn:Hf0; [done|].
    injection Hv as -> <-.
    apply elem_of_cons in Hin as [->|Hin].
    + exists v. split; [done|]. apply lookup_insert_eq.
    + destruct (IH r' Hnd eq_refl Hin) as (w & Hw & Hr).
      exists w. split; [done|].
      rewrite lookup_insert_ne; [done|].
      intros Heq. apply Hfresh. rewrite Heq.
      by apply list_elem_of_fmap_2.
Qed.

Lemma validate_fields_error fs f e :
  f ∈ fs → validate_field now f kwargs = inl e →
  (fname f, e) ∈ (validate_fields now fs kwargs).1.
Proof.
  induction fs as [|f0 fs IH]; intros Hin Hf.
  - by apply elem_of_nil in Hin.
  - simpl. destruct (validate_fields now fs kwargs) as [es r'] eqn:Hfs.
    apply elem_of_cons in Hin as [<-|Hin].
    + rewrite Hf. simpl. apply elem_of_cons; by left.
    + specialize (IH Hin Hf). simpl in IH.
      destruct (validate_field now f0 kwargs); simpl; [|done].
      apply elem_of_cons; by right.
Qed.

(** A supplied value that its declaration refuses makes the whole
    validation fail, with that error reported, and nothing is stored. *)
Lemma model_validate_rejects m f v e :
  f ∈ fields m → kwargs !! fname f = Some v → validate_value f v = Some e →
  ∃ es, model_validate now m kwargs = Err es ∧ (fname f, e) ∈ es
        ∧ ∀ db db', create now db m kwargs ≠ inr db'.
Proof.
  intros Hin Hk Hv.
  assert (validate_field now f kwargs = inl e) as Hf.
  { unfold validate_field. by rewrite Hk, Hv. }
  pose proof (validate_fields_error _ _ _ Hin Hf) as Herr.
  unfold create, model_validate.
  destruct (validate_fields now (fields m) kwargs) as [es r].
  simpl in Herr. destruct es as [|e0 es]; [by apply elem_of_nil in Herr|].
  exists (e0 :: es). split; [done|]. split; [done|].
  intros db db'. by destruct (tablename m).
Qed.

(** An accepted instance holds, for every attribute, the supplied value
    (which its declaration accepts) or the default. *)
Lemma model_validate_accepts m r f :
  NoDup (fname <$> fields m) →
  model_validate now m kwargs = Ok r → f ∈ fields m →
  match kwargs !! fname f with
  | Some v => validate_value f v = None ∧ r !! fname f = Some v
  | None => ∃ v, field_default (now (fname f)) (fargs f) = Some v ∧ r !! fname f = Some v
  end.
Proof.
  intros Hnd Hv Hin. unfold model_validate in Hv.
  destruct (validate_fields now (fields m) kwargs) as [es r'] eqn:Hfs.
  destruct es; [|done]. injection Hv as ->.
  destruct (validate_fields_lookup _ _ _ Hnd Hfs Hin) as (v & Hf & Hr).
  unfold validate_field in Hf.
  destruct (kwargs !! fname f) as [w|].
  - destruct (validate_value f w); [done|]. by injection Hf as ->.
  - destruct (field_default (now (fname f)) (fargs f)) as [d|]; [|done].
    injection Hf as ->. eauto.
Qed.
End validation.

(** No class of the schema declares an attribute twice. *)
Lemma schema_names_NoDup m : m ∈ schema → NoDup (fname <$> fields m).
Proof.
  revert m. apply Forall_forall.
  apply (bool_decide_unpack _). by vm_compute.
Qed.

Lemma is_Ok_accepted (res : result row) : is_Ok res = true → res = Ok (accepted res).
Proof. by destruct res. Qed.

(** ** Construction without validation *)

Lemma table_construct_dom now fs (kwargs : row) k :
  is_Some (table_construct now fs kwargs !! k) → k ∈ fname <$> fs.
Proof.
  induction fs as [|f0 fs IH]; intros Hk.
  - simpl in Hk. rewrite lookup_empty in Hk. by destruct Hk.
  - rewrite fmap_cons. apply elem_of_cons.
    destruct (decide (fname f0 = k)) as [->|Hne]; [by left|right].
    apply IH. simpl in Hk.
    destruct (kwargs !! fname f0);
      [|destruct (field_default (now (fname f0)) (fargs f0))];
      by rewrite ?lookup_insert_ne in Hk.
Qed.

(** What the constructor of a table class gives an attribute: the supplied
    value, whatever it is, and otherwise the default, if there is one. *)
Lemma table_construct_lookup now fs (kwargs : row) f :
  NoDup (fname <$> fs) → f ∈ fs →
  table_construct now fs kwargs !! fname f
  = match kwargs !! fname f with
    | Some v => Some v
    | None => field_default (now (fname f)) (fargs f)
    end.
Proof.
  induction fs as [|f0 fs IH]; intros Hnd Hin.
  - by apply elem_of_nil in Hin.
  - rewrite fmap_cons in Hnd. apply NoDup_cons in Hnd as [Hfresh Hnd].
    apply elem_of_cons in Hin as [->|Hin].
    + cbn [table_construct].
      destruct (kwargs !! fname f0); [apply lookup_insert_eq|].
      destruct (field_default (now (fname f0)) (fargs f0));
        [apply lookup_insert_eq|].
      destruct (table_construct now fs kwargs !! fname f0) eqn:Hl; [|done].
      exfalso. apply Hfresh. eapply table_construct_dom. by rewrite Hl.
    + assert (fname f0 ≠ fname f) as Hne.
      { intros Heq. apply Hfresh. rewrite Heq. by apply list_elem_of_fmap_2. }
      cbn [table_construct].
      destruct (kwargs !! fname f0);
        [|destruct (field_default (now (fname f0)) (fargs f0))];
        rewrite ?lookup_insert_ne by done; by apply IH.
Qed.

Lemma construct_table now m t (kwargs : row) f :
  m ∈ schema → tablename m = Some t → f ∈ fields m →
  ∃ r, construct now m kwargs = Ok r
       ∧ r !! fname f = match kwargs !! fname f with
                        | Some v => Some v
                        | None => field_default (now (fname f)) (fargs f)
                        end.
Proof.
  intros Hm Ht Hf. unfold construct. rewrite Ht. eexists. split; [done|].
  apply table_construct_lookup; [by apply schema_names_NoDup | done].
Qed.

(** ** Enumerations *)

Section enums.
Context {A : Type} `{PyEnum A}.

Lemma find_by_value (l : list A) (s : string) :
  is_Some (find (λ m, String.eqb (value m) s) l) ↔ s ∈ value <$> l.
Proof.
  induction l as [|a l IH]; simpl.
  - split; [by intros [? ?] | by intros ?%elem_of_nil].
  - destruct (String.eqb_spec (value a) s) as [->|Hne].
    + split; [intros _; apply elem_of_cons; by left | eauto].
    + rewrite IH. split; [intros ?; apply elem_of_cons; by right|].
      intros [?|?]%elem_of_cons; [congruence | done].
Qed.

Lemma by_value_is_Some (s : string) :
  is_Some (by_value (A:=A) s) ↔ s ∈ value <$> members.
Proof. apply find_by_value. Qed.

(** What [E(s)] returns has the value [s]. *)
Lemma by_value_value (s : string) (m : A) : by_value s = Some m → value m = s.
Proof.
  unfold by_value. generalize (members (A:=A)). intros l.
  induction l as [|a l IH]; simpl; [done|].
  destruct (String.eqb_spec (value a) s) as [Heq|Hne]; [|done].
  by intros [= <-].
Qed.
End enums.

Lemma enum_accepts_iff c s : enum_accepts c s = true ↔ s ∈ contract_values c.
Proof.
  destruct c; unfold enum_accepts; rewrite bool_decide_eq_true;
    rewrite by_value_is_Some; done.
Qed.

(** C7: in each of the six enumerations the string value of a member
    parses back to that member, a string that parses is the value of the
    member found, and the values are exactly those of the contract, in the
    order of declaration. *)
Theorem enum_values_round_trip :
  round_trips StudentGrade ["4"; "5"; "6"]
  ∧ round_trips QuestionDifficulty ["easy"; "medium"; "hard"]
  ∧ round_trips QuestionType ["multiple_choice"; "true_false"; "short_answer"]
  ∧ round_trips BadgeType
      ["level_completion"; "streak"; "perfect_score"; "explorer"; "scholar"]
  ∧ round_trips MediaType ["image"; "audio"; "video"; "document"; "model_3d"]
  ∧ round_trips ARTriggerType ["banknote"; "stamp"; "textbook_image"; "qr_code"].
Proof.
  repeat apply conj;
    first [ intros []; reflexivity | apply @by_value_value | reflexivity ].
Qed.

(** Attributes of an enumeration type carry no bound of their own. *)
Lemma enum_fields_unbounded m f c :
  m ∈ schema → f ∈ fields m → base_type (fannot f) = t_enum c →
  arg_max_length (fargs f) = None.
Proof.
  intros Hm Hf Hc.
  assert (forallb (λ m, forallb (λ f,
            match base_type (fannot f) with
            | t_enum _ => bool_decide (arg_max_length (fargs f) = None)
            | _ => true
            end) (fields m)) schema = true) as Hall by (vm_compute; reflexivity).
  rewrite forallb_forall in Hall.
  specialize (Hall m (proj1 (list_elem_of_In _ _) Hm)).
  rewrite forallb_forall in Hall.
  specialize (Hall f (proj1 (list_elem_of_In _ _) Hf)).
  rewrite Hc in Hall. by apply bool_decide_eq_true in Hall.
Qed.

(** C2: for every attribute of the schema annotated with one of the six
    enumerations, a string is accepted exactly when it is one of the literal
    values of that enumeration. *)
Theorem enum_attribute_accepts_exactly_members m f c s :
  m ∈ schema → f ∈ fields m → base_type (fannot f) = t_enum c →
  validate_value f (VStr s) = None ↔ s ∈ contract_values c.
Proof.
  intros Hm Hf Hc. rewrite <- enum_accepts_iff.
  unfold validate_value. rewrite Hc. simpl.
  rewrite (enum_fields_unbounded m f c Hm Hf Hc).
  destruct (enum_accepts c s); split; congruence.
Qed.

Lemma enum_attribute_accepts_exactly_members_witness :
  (validate_value (Fld "grade" (Plain (t_enum cStudentGrade)) []) (VStr "4") = None
   ↔ "4" ∈ ["4"; "5"; "6"])
  ∧ (validate_value (Fld "grade" (Plain (t_enum cStudentGrade)) []) (VStr "7") = None
   ↔ "7" ∈ ["4"; "5"; "6"]).
Proof.
  split.
  - apply (enum_attribute_accepts_exactly_members StudentProfile _ cStudentGrade "4");
      [unfold schema; elem_here | unfold StudentProfile; simpl; elem_here | reflexivity].
  - apply (enum_attribute_accepts_exactly_members StudentProfile _ cStudentGrade "7");
      [unfold schema; elem_here | unfold StudentProfile; simpl; elem_here | reflexivity].
Defined.

(** ** Bounded levels *)

Lemma level_value_bounds (name : string) (v : pyvalue) :
  validate_value (Fld name (Plain t_int) [kw_default (VInt 1); kw_ge 1; kw_le 5]) v = None
  ↔ ∃ n, v = VInt n ∧ 1 ≤ n ≤ 5.
Proof.
  destruct v as [|b|n|s|d|t|j]; simpl;
    try (split; [discriminate | by intros (? & [=] & _)]).
  destruct (Z.leb_spec 1 n), (Z.leb_spec n 5); simpl;
    (split; [first [discriminate | intros _; exists n; split; [done | lia]]
            | intros (? & [= <-] & ?); first [done | lia]]).
Qed.

(** C1, the part the program does not hold: the constructor of a table
    class refuses nothing.  A [TermConnection] constructed with strength 6
    holds the strength 6, and a [TimelineEvent] constructed with importance
    level 0 holds the level 0. *)
Lemma constructor_keeps_level_outside_1_5 :
  ∃ tc ev : row,
    construct (at_time 0) TermConnection (connection_kwargs (VInt 6)) = Ok tc
    ∧ tc !! "strength" = Some (VInt 6)
    ∧ construct (at_time 0) TimelineEvent (event_kwargs (VInt 0)) = Ok ev
    ∧ ev !! "importance_level" = Some (VInt 0)
    ∧ ¬ (1 ≤ 6 ≤ 5) ∧ ¬ (1 ≤ 0 ≤ 5).
Proof.
  eexists _, _.
  split; [apply is_Ok_accepted; vm_compute; reflexivity|].
  split; [vm_compute; reflexivity|].
  split; [apply is_Ok_accepted; vm_compute; reflexivity|].
  split; [vm_compute; reflexivity|].
  split; lia.
Qed.

(** C1, as the program has it: validation refuses a [TermConnection]
    whose strength, or a [TimelineEvent] whose importance level, is an
    integer outside 1..5, and reports the attribute; in every instance that
    validation accepts the attribute is an integer between 1 and 5.  The
    constructor of the two classes does not validate: it keeps the value
    supplied for the attribute, whatever it is. *)
Theorem validated_levels_within_1_5 now m col kwargs :
  (m, col) ∈ bounded_levels →
  (∀ n, kwargs !! col = Some (VInt n) → ¬ (1 ≤ n ≤ 5) →
     ∃ es e, model_validate now m kwargs = Err es ∧ (col, e) ∈ es)
  ∧ (∀ r, model_validate now m kwargs = Ok r →
     ∃ n, r !! col = Some (VInt n) ∧ 1 ≤ n ≤ 5)
  ∧ (∀ v, kwargs !! col = Some v →
     ∃ r, construct now m kwargs = Ok r ∧ r !! col = Some v).
Proof.
  intros Hin.
  assert (m ∈ schema ∧ is_Some (tablename m) ∧
          Fld col (Plain t_int) [kw_default (VInt 1); kw_ge 1; kw_le 5] ∈ fields m)
    as (Hm & [t Ht] & Hf).
  { unfold bounded_levels in Hin.
    apply elem_of_cons in Hin as [[= -> ->]|Hin];
      [|apply elem_of_cons in Hin as [[= -> ->]|Hin];
        [|by apply elem_of_nil in Hin]];
      (split; [unfold schema; elem_here | split; [by eexists | simpl; elem_here]]). }
  set (f := Fld col _ _) in Hf. split; [|split].
  - intros n Hk Hout.
    destruct (validate_value f (VInt n)) as [e|] eqn:Hv.
    + destruct (model_validate_rejects now kwargs m f _ e Hf Hk Hv)
        as (es & Hes & Hmem & _). eauto.
    + apply level_value_bounds in Hv as (n' & [= <-] & Hn). contradiction.
  - intros r Hr.
    pose proof (model_validate_accepts now kwargs m r f
                  (schema_names_NoDup m Hm) Hr Hf) as Hacc.
    simpl in Hacc. destruct (kwargs !! col) as [v|].
    + destruct Hacc as [Hv Hrow].
      apply level_value_bounds in Hv as (n & -> & Hn). eauto.
    + destruct Hacc as (v & [= <-] & Hrow). exists 1. split; [done | lia].
  - intros v Hk.
    destruct (construct_table now m t kwargs f Hm Ht Hf) as (r & Hr & Hrow).
    cbn [fname f] in Hrow. rewrite Hk in Hrow. eauto.
Qed.

Lemma validated_levels_within_1_5_witness :
  (∃ es e, model_validate (at_time 0) TermConnection (connection_kwargs (VInt 6)) = Err es
           ∧ ("strength", e) ∈ es)
  ∧ (∃ es e, model_validate (at_time 0) TimelineEvent (event_kwargs (VInt 0)) = Err es
             ∧ ("importance_level", e) ∈ es)
  ∧ (∃ n, accepted (model_validate (at_time 0) TermConnection (connection_kwargs (VInt 5)))
            !! "strength" = Some (VInt n) ∧ 1 ≤ n ≤ 5)
  ∧ (∃ r, construct (at_time 0) TermConnection (connection_kwargs (VInt 6)) = Ok r
          ∧ r !! "strength" = Some (VInt 6)).
Proof.
  split; [|split; [|split]].
  - apply (proj1 (validated_levels_within_1_5 (at_time 0) TermConnection "strength"
                    (connection_kwargs (VInt 6)) ltac:(unfold bounded_levels; elem_here)) 6);
      [reflexivity | lia].
  - apply (proj1 (validated_levels_within_1_5 (at_time 0) TimelineEvent "importance_level"
                    (event_kwargs (VInt 0)) ltac:(unfold bounded_levels; elem_here)) 0);
      [reflexivity | lia].
  - apply (proj1 (proj2 (validated_levels_within_1_5 (at_time 0) TermConnection "strength"
                    (connection_kwargs (VInt 5)) ltac:(unfold bounded_levels; elem_here)))).
    apply is_Ok_accepted. vm_compute. reflexivity.
  - apply (proj2 (proj2 (validated_levels_within_1_5 (at_time 0) TermConnection "strength"
                    (connection_kwargs (VInt 6)) ltac:(unfold bounded_levels; elem_here)))).
    reflexivity.
Defined.

(** ** String lengths *)

Lemma over_length_refused f n s :
  arg_max_length (fargs f) = Some n → (n < String.length s)%nat →
  ∃ e, validate_value f (VStr s) = Some e.
Proof.
  intros Hn Hlen. unfold validate_value.
  destruct (check_type (base_type (fannot f)) (VStr s)) as [e|]; [eauto|].
  simpl. rewrite Hn.
  destruct (Nat.leb_spec (String.length s) n); [lia | eauto].
Qed.

(** A string attribute accepts every string within its bound. *)
Lemma within_length_accepted f n s :
  base_type (fannot f) = t_str → arg_max_length (fargs f) = Some n →
  (String.length s ≤ n)%nat → validate_value f (VStr s) = None.
Proof.
  intros Ht Hn Hlen. unfold validate_value. rewrite Ht. simpl. rewrite Hn.
  destruct (Nat.leb_spec (String.length s) n); [done | lia].
Qed.

(** C4, the part the program does not hold: the constructor of the table
    class [User] takes a user name of 52 characters, over the bound of 50, and
    the instance holds it. *)
Lemma constructor_keeps_over_length_string :
  ∃ r, construct (at_time 0) User (user_kwargs long_username) = Ok r
       ∧ r !! "username" = Some (VStr long_username)
       ∧ arg_max_length (fargs (Fld "username" (Plain t_str)
                                  [kw_max_length 50; kw_unique; kw_index])) = Some 50%nat
       ∧ (50 < String.length long_username)%nat.
Proof.
  eexists.
  split; [apply is_Ok_accepted; vm_compute; reflexivity|].
  split; [vm_compute; reflexivity|].
  split; [reflexivity | vm_compute; lia].
Qed.

(** C4, as the program has it: for an attribute declared with
    [max_length=n], a supplied string longer than [n] makes validation fail,
    with the attribute reported; the constructor of a validation-only class
    such as [UserCreate] validates, and fails likewise.  The constructor of a
    table class such as [User] does not validate: the instance holds the
    string, over its bound. *)
Theorem over_length_string_validation now m f n s kwargs :
  m ∈ schema → f ∈ fields m → arg_max_length (fargs f) = Some n →
  kwargs !! fname f = Some (VStr s) → (n < String.length s)%nat →
  (∃ es e, model_validate now m kwargs = Err es ∧ (fname f, e) ∈ es)
  ∧ (tablename m = None → ∃ es, construct now m kwargs = Err es)
  ∧ (is_Some (tablename m) →
     ∃ r, construct now m kwargs = Ok r ∧ r !! fname f = Some (VStr s)).
Proof.
  intros Hm Hf Hn Hk Hlen.
  destruct (over_length_refused f n s Hn Hlen) as [e He].
  destruct (model_validate_rejects now kwargs m f _ e Hf Hk He)
    as (es & Hes & Hmem & _).
  split; [eauto|]. split.
  - intros Ht. unfold construct. rewrite Ht. eauto.
  - intros [t Ht].
    destruct (construct_table now m t kwargs f Hm Ht Hf) as (r & Hr & Hrow).
    rewrite Hk in Hrow. eauto.
Qed.

Lemma over_length_string_validation_witness :
  (∃ es e, model_validate (at_time 0) User (user_kwargs long_username) = Err es
           ∧ ("username", e) ∈ es)
  ∧ (∃ es, construct (at_time 0) UserCreate (user_kwargs long_username) = Err es)
  ∧ (∃ r, construct (at_time 0) User (user_kwargs long_username) = Ok r
          ∧ r !! "username" = Some (VStr long_username)).
Proof.
  split; [|split].
  - apply (proj1 (over_length_string_validation (at_time 0) User
             (Fld "username" (Plain t_str) [kw_max_length 50; kw_unique; kw_index])
             50 long_username (user_kwargs long_username)
             ltac:(unfold schema; elem_here) ltac:(simpl; elem_here) eq_refl eq_refl
             ltac:(vm_compute; lia))).
  - apply (proj1 (proj2 (over_length_string_validation (at_time 0) UserCreate
             (Fld "username" (Plain t_str) [kw_max_length 50])
             50 long_username (user_kwargs long_username)
             ltac:(unfold schema; elem_here) ltac:(simpl; elem_here) eq_refl eq_refl
             ltac:(vm_compute; lia)))).
    reflexivity.
  - apply (proj2 (proj2 (over_length_string_validation (at_time 0) User
             (Fld "username" (Plain t_str) [kw_max_length 50; kw_unique; kw_index])
             50 long_username (user_kwargs long_username)
             ltac:(unfold schema; elem_here) ltac:(simpl; elem_here) eq_refl eq_refl
             ltac:(vm_compute; lia)))).
    by eexists.
Defined.

(** ** Session status *)




(** ** Database states *)

Lemma column_app col (l1 l2 : list row) :
  column col (l1 ++ l2)%list = (column col l1 ++ column col l2)%list.
Proof.
  unfold column. apply omap_app.
Qed.

Lemma column_elem col (rows : list row) i r v :
  rows !! i = Some r → r !! col = Some v → v ≠ VNone → v ∈ column col rows.
Proof.
  intros Hi Hv Hnn. unfold column. apply list_elem_of_omap.
  exists r. split; [by eapply list_elem_of_lookup_2|].
  rewrite Hv. by destruct v.
Qed.

(** In a column without repeated values, two rows with the same non-null
    value are the same row. *)
Lemma column_NoDup_same_row col (rows : list row) i j r1 r2 v :
  NoDup (column col rows) →
  rows !! i = Some r1 → rows !! j = Some r2 →
  r1 !! col = Some v → r2 !! col = Some v → v ≠ VNone → i = j.
Proof.
  revert i j. induction rows as [|r rows IH]; intros i j Hnd Hi Hj H1 H2 Hnn.
  - done.
  - assert (NoDup (column col rows) ∧
            (r !! col = Some v → v ∉ column col rows)) as [Hnd' Hfresh].
    { unfold column in *. simpl in Hnd.
      destruct (r !! col) as [w|] eqn:Hr; [|split; [done | discriminate]].
      destruct w; try (apply NoDup_cons in Hnd as [? ?]; split;
                       [done | by intros [= <-]]).
      split; [done | by intros [= <-]]. }
    destruct i as [|i], j as [|j]; simpl in Hi, Hj.
    + done.
    + injection Hi as ->. exfalso. apply (Hfresh H1).
      by eapply column_elem.
    + injection Hj as ->. exfalso. apply (Hfresh H2).
      by eapply column_elem.
    + f_equal. by apply IH.
Qed.

Lemma db_ok_table db m : db_ok db = true → m ∈ schema → table_ok db m = true.
Proof.
  unfold db_ok. rewrite forallb_forall. intros H Hm.
  apply H. by apply list_elem_of_In.
Qed.

Lemma table_ok_inv db m t :
  table_ok db m = true → tablename m = Some t →
  (∀ r, r ∈ table_rows db t → row_ok m r = true)
  ∧ (∀ f, f ∈ fields m → is_key f = true → NoDup (column (fname f) (table_rows db t)))
  ∧ (∀ r f, r ∈ table_rows db t → f ∈ fields m → fk_ok db r f = true).
Proof.
  intros H Ht. unfold table_ok in H. rewrite Ht in H.
  apply andb_prop in H as [H Hfk]. apply andb_prop in H as [Hrow Hkey].
  rewrite forallb_forall in Hrow, Hfk.
  unfold keys_ok in Hkey. rewrite forallb_forall in Hkey.
  repeat split.
  - intros r Hr. apply Hrow. by apply list_elem_of_In.
  - intros f Hf Hk. specialize (Hkey f (proj1 (list_elem_of_In _ _) Hf)).
    rewrite Hk in Hkey. simpl in Hkey. by apply bool_decide_eq_true in Hkey.
  - intros r f Hr Hf. specialize (Hfk r (proj1 (list_elem_of_In _ _) Hr)).
    rewrite forallb_forall in Hfk. apply Hfk. by apply list_elem_of_In.
Qed.

Lemma row_ok_cell m r f : row_ok m r = true → f ∈ fields m → cell_ok f r = true.
Proof.
  unfold row_ok. rewrite forallb_forall. intros H Hf.
  apply H. by apply list_elem_of_In.
Qed.

(** C5: in a state that satisfies the constraints of the schema, two rows
    of [student_profiles], or two rows of [teacher_profiles], with the same
    [user_id] are one and the same row. *)
Theorem profile_user_id_unique db m t i j r1 r2 :
  db_ok db = true →
  m ∈ [StudentProfile; TeacherProfile] → tablename m = Some t →
  table_rows db t !! i = Some r1 → table_rows db t !! j = Some r2 →
  r1 !! "user_id" = r2 !! "user_id" → i = j.
Proof.
  intros Hok Hm Ht Hi Hj Heq.
  assert (m ∈ schema ∧ user_id ∈ fields m) as [Hs Hf].
  { apply elem_of_cons in Hm as [->|Hm];
      [|apply elem_of_cons in Hm as [->|Hm]; [|by apply elem_of_nil in Hm]];
      (split; [unfold schema; elem_here | simpl; elem_here]). }
  destruct (table_ok_inv db m t (db_ok_table db m Hok Hs) Ht) as (Hrow & Hkey & _).
  pose proof (Hkey user_id Hf eq_refl) as Hnd. simpl in Hnd.
  pose proof (row_ok_cell m r1 user_id
                (Hrow r1 (list_elem_of_lookup_2 _ _ _ Hi)) Hf) as Hc1.
  pose proof (row_ok_cell m r2 user_id
                (Hrow r2 (list_elem_of_lookup_2 _ _ _ Hj)) Hf) as Hc2.
  unfold cell_ok in Hc1, Hc2. simpl in Hc1, Hc2.
  destruct (r1 !! "user_id") as [v1|] eqn:H1; [|done].
  destruct (r2 !! "user_id") as [v2|] eqn:H2; [|done].
  injection Heq as <-.
  apply (column_NoDup_same_row "user_id" (table_rows db t) i j r1 r2 v1);
    try done.
  intros ->. done.
Qed.

Lemma table_ok_intro db m t :
  tablename m = Some t →
  (∀ r, r ∈ table_rows db t → row_ok m r = true) →
  (∀ f, f ∈ fields m → is_key f = true → NoDup (column (fname f) (table_rows db t))) →
  (∀ r f, r ∈ table_rows db t → f ∈ fields m → fk_ok db r f = true) →
  table_ok db m = true.
Proof.
  intros Ht Hrow Hkey Hfk. unfold table_ok. rewrite Ht.
  apply andb_true_intro; split; [apply andb_true_intro; split|].
  - apply forallb_forall. intros r Hr%list_elem_of_In. by apply Hrow.
  - unfold keys_ok. apply forallb_forall. intros f Hf%list_elem_of_In.
    destruct (is_key f) eqn:Hk; [|done]. simpl.
    apply bool_decide_eq_true. by apply Hkey.
  - apply forallb_forall. intros r Hr%list_elem_of_In.
    apply forallb_forall. intros f Hf%list_elem_of_In. by apply Hfk.
Qed.

Lemma table_rows_insert (db : database) t rows t' :
  table_rows (<[t := rows]> db) t' = if decide (t = t') then rows else table_rows db t'.
Proof. unfold table_rows. rewrite lookup_insert. by case_decide. Qed.

Lemma column_single col (r : row) :
  column col [r] = match r !! col with
                   | Some VNone | None => []
                   | Some v => [v]
                   end.
Proof. unfold column. simpl. by destruct (r !! col) as [[]|]. Qed.

Lemma column_snoc_NoDup col (rows : list row) (r : row) :
  NoDup (column col rows) →
  match r !! col with
  | Some VNone | None => true
  | Some v => bool_decide (v ∉ column col rows)
  end = true →
  NoDup (column col (rows ++ [r])%list).
Proof.
  intros Hnd Hfree. rewrite column_app, column_single.
  assert (∀ v, v ∉ column col rows → NoDup (column col rows ++ [v])%list) as Hsnoc.
  { intros v Hv. apply NoDup_app. split; [done|]. split; [|apply NoDup_singleton].
    intros x Hx ->%list_elem_of_singleton. contradiction. }
  destruct (r !! col) as [v|]; [|by rewrite app_nil_r].
  destruct v; try (apply Hsnoc; by apply bool_decide_eq_true in Hfree).
  by rewrite app_nil_r.
Qed.

(** A reference that holds keeps holding when a table grows. *)
Lemma fk_ok_grow (db : database) t r0 r f :
  fk_ok db r f = true →
  fk_ok (<[t := (table_rows db t ++ [r0])%list]> db) r f = true.
Proof.
  unfold fk_ok. destruct (arg_foreign_key (fargs f)) as [[tt c]|]; [|done].
  assert (∀ v, bool_decide (v ∈ column c (table_rows db tt)) = true →
               bool_decide (v ∈ column c (table_rows
                  (<[t := (table_rows db t ++ [r0])%list]> db) tt)) = true) as Hmono.
  { intros v Hv%bool_decide_eq_true. apply bool_decide_eq_true.
    rewrite table_rows_insert. case_decide as Heq; [|done].
    subst tt. rewrite column_app. apply elem_of_app. by left. }
  destruct (r !! fname f) as [v|]; [|done].
  destruct v; try done; apply Hmono.
Qed.

(** Two table classes of the schema with the same table are one class. *)
Lemma schema_tables_inj m m' t :
  m ∈ schema → m' ∈ schema → tablename m = Some t → tablename m' = Some t → m = m'.
Proof.
  intros Hm Hm' Ht Ht'.
  assert (Forall (λ a, Forall (λ b, tablename a = tablename b →
                                    tablename a = None ∨ a = b) schema) schema)
    as Hall by (apply (bool_decide_unpack _); by vm_compute).
  rewrite Forall_forall in Hall. specialize (Hall m Hm).
  rewrite Forall_forall in Hall.
  destruct (Hall m' Hm') as [Hn|]; [congruence | congruence | done].
Qed.

(** The constraints of the schema are kept by every [create]. *)
Lemma create_preserves_ok now db m kwargs db' :
  m ∈ schema → db_ok db = true → create now db m kwargs = inr db' →
  db_ok db' = true.
Proof.
  intros Hm Hok Hc. unfold create in Hc.
  destruct (tablename m) as [t|] eqn:Ht; [|done].
  destruct (model_validate now m kwargs) as [r|]; [|done].
  remember (assign_id m (table_rows db t) r) as r' eqn:Hr'. clear Hr'.
  destruct (row_ok m r' && forallb (key_free (table_rows db t) r') (fields m)
            && forallb (fk_ok db r') (fields m)) eqn:Hg; [|done].
  injection Hc as <-.
  apply andb_prop in Hg as [Hg Hfk]. apply andb_prop in Hg as [Hrow Hkeys].
  rewrite forallb_forall in Hkeys, Hfk.
  unfold db_ok. apply forallb_forall. intros m' Hm'%list_elem_of_In.
  pose proof (db_ok_table db m' Hok Hm') as Hold.
  destruct (tablename m') as [t'|] eqn:Ht'; [|unfold table_ok; by rewrite Ht'].
  destruct (table_ok_inv db m' t' Hold Ht') as (Hr & Hk & Hf).
  apply (table_ok_intro _ m' t' Ht'); rewrite table_rows_insert;
    (case_decide as Htt; [subst t'; assert (m' = m) as ->
                            by (by eapply schema_tables_inj)|]).
  - intros x [Hx|Hx%list_elem_of_singleton]%elem_of_app; [by apply Hr | by subst].
  - done.
  - intros f Hin Hkf. apply column_snoc_NoDup; [by apply Hk|].
    specialize (Hkeys f (proj1 (list_elem_of_In _ _) Hin)).
    unfold key_free in Hkeys. by rewrite Hkf in Hkeys.
  - done.
  - intros x f [Hx|Hx%list_elem_of_singleton]%elem_of_app Hin;
      apply fk_ok_grow; [by apply Hf | subst x].
    apply Hfk. by apply list_elem_of_In.
  - intros x f Hx Hin. apply fk_ok_grow. by apply Hf.
Qed.

(** Every state built by [create] satisfies the constraints of the schema. *)
Lemma reachable_ok db : reachable db → db_ok db = true.
Proof.
  induction 1 as [|now db m kwargs db' _ IH Hm Hc].
  - by vm_compute.
  - by eapply create_preserves_ok.
Qed.

Lemma create_all_reachable now steps db db' :
  reachable db → Forall (λ p, p.1 ∈ schema) steps →
  create_all now db steps = inr db' → reachable db'.
Proof.
  revert db. induction steps as [|[m kwargs] steps IH]; intros db Hdb Hall Hrun.
  - simpl in Hrun. by injection Hrun as <-.
  - simpl in Hrun. apply Forall_cons in Hall as [Hm Hall].
    destruct (create now db m kwargs) as [e|db1] eqn:Hc; [done|].
    apply (IH db1); [|done|done]. by eapply reach_create.
Qed.


Lemma run_reachable steps :
  Forall (λ p, p.1 ∈ schema) steps →
  succeeded (create_all (at_time 0) ∅ steps) = true → reachable (run steps).
Proof.
  intros Hall Hrun. apply (create_all_reachable (at_time 0) steps ∅); [constructor | done |].
  unfold run. by destruct (create_all (at_time 0) ∅ steps).
Qed.

Lemma row_at_elem (db : database) t i :
  (i <? length (table_rows db t))%nat = true → row_at db t i ∈ table_rows db t.
Proof.
  intros Hi%Nat.ltb_lt. unfold row_at.
  destruct (lookup_lt_is_Some_2 _ _ Hi) as [r Hr].
  rewrite Hr. simpl. by eapply list_elem_of_lookup_2.
Qed.

Lemma row_at_lookup (db : database) t i :
  (i <? length (table_rows db t))%nat = true →
  table_rows db t !! i = Some (row_at db t i).
Proof.
  intros Hi%Nat.ltb_lt. unfold row_at.
  destruct (lookup_lt_is_Some_2 _ _ Hi) as [r Hr]. by rewrite Hr.
Qed.

Lemma both_profiles_reachable : reachable both_profiles_db.
Proof. apply run_reachable; [in_schema | vm_compute; reflexivity]. Qed.

Lemma profile_user_id_unique_witness :
  db_ok both_profiles_db = true ∧ (0 = 0)%nat.
Proof.
  assert (db_ok both_profiles_db = true) as Hok by (vm_compute; reflexivity).
  split; [exact Hok|].
  apply (profile_user_id_unique both_profiles_db TeacherProfile "teacher_profiles" 0 0
           (row_at both_profiles_db "teacher_profiles" 0)
           (row_at both_profiles_db "teacher_profiles" 0));
    [exact Hok | elem_here | reflexivity
    | apply row_at_lookup; vm_compute; reflexivity
    | apply row_at_lookup; vm_compute; reflexivity | reflexivity].
Defined.

(** C6: a state built by the schema's own insertions, satisfying every
    constraint, holds a student profile and a teacher profile that reference
    one and the same existing user. *)
Theorem both_profiles_accepted :
  reachable both_profiles_db
  ∧ db_ok both_profiles_db = true
  ∧ ∃ (u : Z) (usr sp tp : row),
      usr ∈ table_rows both_profiles_db "users" ∧ usr !! "id" = Some (VInt u)
      ∧ sp ∈ table_rows both_profiles_db "student_profiles"
      ∧ sp !! "user_id" = Some (VInt u)
      ∧ tp ∈ table_rows both_profiles_db "teacher_profiles"
      ∧ tp !! "user_id" = Some (VInt u).
Proof.
  split; [exact both_profiles_reachable|].
  split; [apply reachable_ok, both_profiles_reachable|].
  exists 1, (row_at both_profiles_db "users" 0),
    (row_at both_profiles_db "student_profiles" 0),
    (row_at both_profiles_db "teacher_profiles" 0).
  repeat apply conj;
    first [ apply row_at_elem; vm_compute; reflexivity | vm_compute; reflexivity ].
Qed.

Lemma self_loop_reachable : reachable self_loop_db.
Proof. apply run_reachable; [in_schema | vm_compute; reflexivity]. Qed.

(** C9: a state built by the schema's own insertions, satisfying every
    constraint, holds a term connection whose source and target are one and
    the same existing vocabulary term. *)
Theorem self_loop_accepted :
  reachable self_loop_db
  ∧ db_ok self_loop_db = true
  ∧ ∃ (t : Z) (term tc : row),
      term ∈ table_rows self_loop_db "vocabulary_terms" ∧ term !! "id" = Some (VInt t)
      ∧ tc ∈ table_rows self_loop_db "term_connections"
      ∧ tc !! "source_term_id" = Some (VInt t)
      ∧ tc !! "target_term_id" = Some (VInt t).
Proof.
  split; [exact self_loop_reachable|].
  split; [apply reachable_ok, self_loop_reachable|].
  exists 1, (row_at self_loop_db "vocabulary_terms" 0),
    (row_at self_loop_db "term_connections" 0).
  repeat apply conj;
    first [ apply row_at_elem; vm_compute; reflexivity | vm_compute; reflexivity ].
Qed.

(** ** Attempt limit *)

Lemma unlimited_level_ok :
  db_ok unlimited_level_db = true
  ∧ row_at unlimited_level_db "quiz_levels" 0 ∈ table_rows unlimited_level_db "quiz_levels"
  ∧ row_at unlimited_level_db "quiz_levels" 0 !! "max_attempts" = Some VNone.
Proof.
  split; [vm_compute; reflexivity|].
  split; [apply row_at_elem; vm_compute; reflexivity | vm_compute; reflexivity].
Qed.

(** C10: a quiz level made without [max_attempts], by validation or by
    the constructor, has the value 3; a null [max_attempts] is accepted by
    validation and kept, the column is nullable, and a state holding a level
    with a null limit satisfies every constraint of the schema. *)
Theorem level_max_attempts_default now kwargs r :
  model_validate now QuizLevel kwargs = Ok r →
  max_attempts ∈ fields QuizLevel
  ∧ (kwargs !! "max_attempts" = None → r !! "max_attempts" = Some (VInt 3))
  ∧ (kwargs !! "max_attempts" = None →
     ∃ r', construct now QuizLevel kwargs = Ok r'
           ∧ r' !! "max_attempts" = Some (VInt 3))
  ∧ (kwargs !! "max_attempts" = Some VNone → r !! "max_attempts" = Some VNone)
  ∧ validate_value max_attempts VNone = None
  ∧ nullable max_attempts = true
  ∧ ∃ (db : database) (lvl : row),
      db_ok db = true
      ∧ lvl ∈ table_rows db "quiz_levels" ∧ lvl !! "max_attempts" = Some VNone.
Proof.
  intros Hr.
  assert (max_attempts ∈ fields QuizLevel) as Hf by (simpl; elem_here).
  assert (QuizLevel ∈ schema) as Hm by (unfold schema; elem_here).
  pose proof (model_validate_accepts now kwargs QuizLevel r max_attempts
                (schema_names_NoDup _ Hm) Hr Hf) as Hacc.
  simpl in Hacc. split; [done|].
  assert (∃ (db : database) (lvl : row),
            db_ok db = true
            ∧ lvl ∈ table_rows db "quiz_levels" ∧ lvl !! "max_attempts" = Some VNone)
    as Hdb.
  { destruct unlimited_level_ok as (Hok & Hin & Hnull).
    exists unlimited_level_db, (row_at unlimited_level_db "quiz_levels" 0).
    split; [exact Hok|]. split; [exact Hin | exact Hnull]. }
  destruct (construct_table now QuizLevel "quiz_levels" kwargs max_attempts
              Hm eq_refl Hf) as (r' & Hr' & Hrow').
  change (fname max_attempts) with "max_attempts" in Hrow'.
  destruct (kwargs !! "max_attempts") as [v|] eqn:Hk.
  - destruct Hacc as [Hv Hrow].
    split; [discriminate|]. split; [discriminate|].
    split; [intros [= ->]; exact Hrow|].
    split; [reflexivity|]. split; [reflexivity | exact Hdb].
  - destruct Hacc as (v & [= <-] & Hrow).
    split; [intros _; exact Hrow|].
    split; [intros _; exists r'; split; [exact Hr' | exact Hrow']|].
    split; [discriminate|].
    split; [reflexivity|]. split; [reflexivity | exact Hdb].
Qed.

Lemma level_max_attempts_default_witness :
  (accepted (model_validate (at_time 0) QuizLevel (level_kwargs []))) !! "max_attempts"
    = Some (VInt 3)
  ∧ (accepted (model_validate (at_time 0) QuizLevel (level_kwargs [("max_attempts", VNone)])))
      !! "max_attempts" = Some VNone.
Proof.
  split.
  - refine (proj1 (proj2 (level_max_attempts_default (at_time 0) (level_kwargs []) _ _)) _).
    + apply is_Ok_accepted. vm_compute. reflexivity.
    + vm_compute. reflexivity.
  - refine (proj1 (proj2 (proj2 (proj2 (level_max_attempts_default (at_time 0)
                                   (level_kwargs [("max_attempts", VNone)]) _ _)))) _).
    + apply is_Ok_accepted. vm_compute. reflexivity.
    + vm_compute. reflexivity.
Defined.

(** ** Decimals *)

Lemma digit_val_bounds d : 0 ≤ digit_val d ≤ 9.
Proof. destruct d; simpl; lia. Qed.

Lemma coefficient_snoc ds d :
  coefficient (ds ++ [d])%list = 10 * coefficient ds + digit_val d.
Proof. unfold coefficient. by rewrite fold_left_app. Qed.

Lemma coefficient_bounds ds : 0 ≤ coefficient ds < 10 ^ Z.of_nat (length ds).
Proof.
  induction ds as [|d ds IH] using rev_ind; [simpl; unfold coefficient; simpl; lia|].
  rewrite coefficient_snoc, length_app. simpl length.
  replace (Z.of_nat (length ds + 1)) with (Z.of_nat (length ds) + 1) by lia.
  rewrite Z.pow_add_r by lia.
  pose proof (digit_val_bounds d). lia.
Qed.

(** Trailing zeros multiply the coefficient by a power of ten. *)
Lemma coefficient_zeros ds k :
  coefficient (ds ++ replicate k d0)%list = coefficient ds * 10 ^ Z.of_nat k.
Proof.
  induction k as [|k IH].
  - simpl. rewrite app_nil_r. lia.
  - replace (replicate (S k) d0) with (replicate k d0 ++ [d0])%list
      by (by rewrite <- replicate_S_end).
    rewrite app_assoc, coefficient_snoc, IH.
    replace (Z.of_nat (S k)) with (Z.of_nat k + 1) by lia.
    rewrite Z.pow_add_r by lia. simpl. lia.
Qed.

Lemma rev_replicate {A} (k : nat) (x : A) : rev (replicate k x) = replicate k x.
Proof.
  induction k as [|k IH]; [done|].
  simpl. rewrite IH. by rewrite <- replicate_S_end.
Qed.

Lemma trailing_zeros_spec l k r :
  trailing_zeros l = (k, r) → l = (replicate k d0 ++ r)%list.
Proof.
  revert k r. induction l as [|d l IH]; intros k r Hs.
  - simpl in Hs. by injection Hs as <- <-.
  - destruct d; simpl in Hs; try (by injection Hs as <- <-).
    destruct (trailing_zeros l) as [k' r'] eqn:Hl.
    injection Hs as <- <-. simpl. f_equal. by apply IH.
Qed.

Lemma trailing_zeros_head l k x r : trailing_zeros l = (k, x :: r) → x ≠ d0.
Proof.
  revert k. induction l as [|d l IH]; intros k Hs; [done|].
  destruct d; simpl in Hs; try (by injection Hs as <- <- <-).
  destruct (trailing_zeros l) as [k' r'] eqn:Hl. injection Hs as <- ->.
  by eapply IH.
Qed.

Lemma coefficient_last_nonzero L x : x ≠ d0 → 0 < coefficient (L ++ [x])%list.
Proof.
  intros Hx. rewrite coefficient_snoc.
  pose proof (coefficient_bounds L). pose proof (digit_val_bounds x).
  assert (digit_val x ≠ 0) by (by destruct x). lia.
Qed.

(** What [strip_trailing] keeps: the number is unchanged; zero is written
    with the one digit 0, and of any other number all the trailing zeros have
    moved into the exponent. *)
Lemma strip_trailing_spec d :
  (coefficient (ddigits d) = 0
   ∧ ddigits (strip_trailing d) = [d0] ∧ dexp (strip_trailing d) = 0)
  ∨ (coefficient (ddigits d) ≠ 0
     ∧ ∃ (k : nat) (r : list digit),
         trailing_zeros (rev (ddigits d)) = (k, r)
         ∧ dexp (strip_trailing d) = dexp d + Z.of_nat k
         ∧ (length (ddigits (strip_trailing d)) + k = length (ddigits d))%nat
         ∧ coefficient (ddigits d)
           = coefficient (ddigits (strip_trailing d)) * 10 ^ Z.of_nat k).
Proof.
  unfold strip_trailing.
  destruct (trailing_zeros (rev (ddigits d))) as [k r] eqn:Hs.
  pose proof (trailing_zeros_spec _ _ _ Hs) as Hrev.
  assert (ddigits d = (rev r ++ replicate k d0)%list) as Hd.
  { rewrite <- (rev_involutive (ddigits d)), Hrev, rev_app_distr.
    by rewrite rev_replicate. }
  destruct r as [|x r].
  - left. split; [|done].
    simpl in Hd. rewrite Hd. etrans; [apply (coefficient_zeros [] k)|]. done.
  - right. apply trailing_zeros_head in Hs as Hx. cbn [ddigits dexp].
    assert (coefficient (ddigits d) = coefficient (rev (x :: r)) * 10 ^ Z.of_nat k)
      as Hc by (rewrite Hd; apply coefficient_zeros).
    split.
    + rewrite Hc. pose proof (coefficient_last_nonzero (rev r) x Hx) as Hpos.
      cbn [rev]. assert (0 < 10 ^ Z.of_nat k) by (apply Z.pow_pos_nonneg; lia). nia.
    + exists k, (x :: r). split; [done|]. split; [done|]. split; [|done].
      rewrite Hd, length_app, length_replicate. done.
Qed.

Lemma strip_zeros_spec l e r e' :
  strip_zeros l e = (r, e') →
  ∃ k : nat, l = (replicate k d0 ++ r)%list ∧ e' = e + Z.of_nat k.
Proof.
  revert e. induction l as [|d l IH]; intros e Hs.
  - simpl in Hs. injection Hs as <- <-. exists O. split; [done|lia].
  - destruct d; simpl in Hs;
      try (injection Hs as <- <-; exists O; split; [done|lia]).
    destruct (e <? Emax).
    + destruct (IH _ Hs) as (k & -> & ->). exists (S k). split; [done|lia].
    + injection Hs as <- <-. exists O. split; [done|lia].
Qed.

(** The loop of [normalize] moves no more zeros than there are. *)
Lemma strip_zeros_le l e r e' k0 r0 :
  strip_zeros l e = (r, e') → trailing_zeros l = (k0, r0) → e' ≤ e + Z.of_nat k0.
Proof.
  revert e k0. induction l as [|d l IH]; intros e k0 Hs Ht.
  - simpl in Hs. injection Hs as <- <-. lia.
  - destruct d; simpl in Hs, Ht; try (injection Hs as <- <-; lia).
    destruct (trailing_zeros l) as [k' r'] eqn:Hl. injection Ht as <- <-.
    destruct (e <? Emax).
    + specialize (IH _ _ Hs eq_refl). lia.
    + injection Hs as <- <-. lia.
Qed.

(** What is measured of a decimal that the context holds as it is: the
    number itself, trailing zeros moved into the exponent. *)
Lemma measured_exact d :
  exact_in_context d = true →
  coefficient (ddigits d) = 0
  ∨ ∃ k : nat, dexp (measured d) = dexp d + Z.of_nat k
       ∧ (length (ddigits (measured d)) + k = length (ddigits d))%nat
       ∧ coefficient (ddigits d)
         = coefficient (ddigits (measured d)) * 10 ^ Z.of_nat k
       ∧ ∀ k0 r0, trailing_zeros (rev (ddigits d)) = (k0, r0) → (k ≤ k0)%nat.
Proof.
  intros [Hlen Hexp]%andb_true_iff. apply Z.leb_le in Hlen, Hexp.
  destruct (Z.eq_dec (coefficient (ddigits d)) 0) as [Hz|Hnz]; [by left|right].
  unfold measured, normalize, fix_context. cbv zeta.
  destruct (Z.eqb_spec (coefficient (ddigits d)) 0) as [|_]; [done|].
  destruct (Z.ltb_spec Etop (Z.of_nat (length (ddigits d)) + dexp d - context_prec)).
  { exists O. simpl. split; [lia|]. split; [lia|]. split; [lia|]. intros; lia. }
  destruct (Z.ltb_spec (dexp d)
              (Z.max (Z.of_nat (length (ddigits d)) + dexp d - context_prec) Etiny));
    [lia|].
  destruct (Z.eqb_spec (coefficient (ddigits d)) 0) as [|_]; [done|].
  destruct (strip_zeros (rev (ddigits d)) (dexp d)) as [r e'] eqn:Hs.
  pose proof (λ k0 r0, strip_zeros_le _ _ _ _ k0 r0 Hs) as Hle.
  apply strip_zeros_spec in Hs as (k & Hl & ->).
  assert (ddigits d = (rev r ++ replicate k d0)%list) as Hd.
  { rewrite <- (rev_involutive (ddigits d)), Hl, rev_app_distr.
    by rewrite rev_replicate. }
  exists k. simpl. split; [done|]. split; [|split].
  - rewrite Hd, length_app, length_replicate. done.
  - rewrite Hd. apply coefficient_zeros.
  - intros k0 r0 Ht. specialize (Hle k0 r0 Ht). lia.
Qed.

Lemma digit_of_Z_val m : 0 ≤ m < 10 → digit_val (digit_of_Z m) = m.
Proof.
  intros Hm.
  assert (m = 0 ∨ m = 1 ∨ m = 2 ∨ m = 3 ∨ m = 4 ∨ m = 5 ∨ m = 6 ∨ m = 7
          ∨ m = 8 ∨ m = 9) as Hcases by lia.
  repeat (destruct Hcases as [->|Hcases]; [reflexivity|]). by subst.
Qed.

Lemma digits_of_coefficient fuel n :
  0 ≤ n < 10 ^ Z.of_nat fuel → coefficient (digits_of fuel n) = n.
Proof.
  revert n. induction fuel as [|fuel IH]; intros n Hn.
  - simpl in Hn. unfold coefficient. simpl. lia.
  - simpl digits_of.
    pose proof (Z.mod_pos_bound n 10 ltac:(lia)) as Hm.
    pose proof (Z.div_mod n 10 ltac:(lia)) as Hdm.
    destruct (Z.ltb_spec n 10) as [Hlt|Hge].
    + unfold coefficient. simpl. rewrite digit_of_Z_val by lia.
      rewrite Z.mod_small by lia. lia.
    + rewrite coefficient_snoc, digit_of_Z_val by lia.
      rewrite IH; [lia|].
      replace (Z.of_nat (S fuel)) with (Z.of_nat fuel + 1) in Hn by lia.
      rewrite Z.pow_add_r in Hn by lia.
      split; [apply Z.div_pos; lia|].
      apply Z.div_lt_upper_bound; lia.
Qed.

Lemma digits_of_length fuel n k :
  (1 ≤ k)%nat → 0 ≤ n < 10 ^ Z.of_nat k → (length (digits_of fuel n) ≤ k)%nat.
Proof.
  revert n k. induction fuel as [|fuel IH]; intros n k Hk Hn; [simpl; lia|].
  simpl digits_of. destruct (Z.ltb_spec n 10) as [Hlt|Hge]; [simpl; lia|].
  rewrite length_app. simpl.
  destruct k as [|[|k]]; [lia | simpl in Hn; lia |].
  assert (length (digits_of fuel (n / 10)) ≤ S k)%nat; [|lia].
  apply IH; [lia|].
  replace (Z.of_nat (S (S k))) with (Z.of_nat (S k) + 1) in Hn by lia.
  rewrite Z.pow_add_r in Hn by lia.
  split; [apply Z.div_pos; lia|].
  apply Z.div_lt_upper_bound; lia.
Qed.

Lemma load_signed_coefficient p s u :
  Z.abs u < 10 ^ Z.of_nat p → signed_coefficient (load_decimal p s u) = u.
Proof.
  intros Hu. unfold load_decimal, signed_coefficient. cbn [dsign ddigits].
  rewrite digits_of_coefficient.
  - destruct (Z.ltb_spec u 0); lia.
  - split; [lia|]. replace (Z.of_nat (S p)) with (Z.of_nat p + 1) by lia.
    rewrite Z.pow_add_r by lia. lia.
Qed.

(** The counts of a decimal, as inequalities on its digits and exponent. *)
Lemma digit_counts_spec D :
  Z.of_nat (digit_counts D).2 = Z.max 0 (- dexp D)
  ∧ Z.of_nat ((digit_counts D).1 - (digit_counts D).2)
    = Z.max 0 (Z.of_nat (length (ddigits D)) + dexp D).
Proof.
  unfold digit_counts.
  destruct (Z.leb_spec 0 (dexp D)); cbn [fst snd]; lia.
Qed.

(** Within the precision of a column, as inequalities on the digits and the
    exponent. *)
Lemma counts_bounds p s D :
  (s ≤ p)%nat →
  (let '(digits, decimals) := digit_counts D in
   (digits <=? p)%nat && (decimals <=? s)%nat && (digits - decimals <=? p - s)%nat) = true
  ↔ - Z.of_nat s ≤ dexp D
    ∧ Z.of_nat (length (ddigits D)) + dexp D + Z.of_nat s ≤ Z.of_nat p.
Proof.
  intros Hsp. unfold digit_counts.
  destruct (Z.leb_spec 0 (dexp D)) as [Hpos|Hneg];
    rewrite !andb_true_iff, !Nat.leb_le; lia.
Qed.

(** What a decimal that passes the digit checks of a column shows: the
    decimal places are within their bound in the value as it is or in the
    normalized value, and so are the digits before the decimal point. *)
Lemma check_decimal_accepted p s d :
  (s ≤ p)%nat → check_decimal (Some p) (Some s) d = None →
  (- Z.of_nat s ≤ dexp d ∨ - Z.of_nat s ≤ dexp (measured d))
  ∧ (Z.of_nat (length (ddigits d)) + dexp d + Z.of_nat s ≤ Z.of_nat p
     ∨ Z.of_nat (length (ddigits (measured d))) + dexp (measured d) + Z.of_nat s
       ≤ Z.of_nat p).
Proof.
  intros Hsp. unfold check_decimal.
  pose proof (digit_counts_spec d) as [Hdec Hwhole].
  pose proof (digit_counts_spec (measured d)) as [Hdecn Hwholen].
  destruct (digit_counts (measured d)) as [ndigits ndecimals].
  destruct (digit_counts d) as [digits decimals].
  cbn [fst snd from_option] in *. unfold over.
  destruct (negb (digits <=? p)%nat && negb (ndigits <=? p)%nat); [done|].
  destruct (Nat.leb_spec decimals s), (Nat.leb_spec ndecimals s);
    cbn [negb andb]; try done;
    destruct (Nat.leb_spec (digits - decimals) (p - s)),
             (Nat.leb_spec (ndigits - ndecimals) (p - s));
    cbn [negb andb]; try done; intros _; lia.
Qed.

Lemma signed_coefficient_sign d :
  signed_coefficient d = (if dsign d then -1 else 1) * coefficient (ddigits d).
Proof. unfold signed_coefficient. destruct (dsign d); lia. Qed.

(** A decimal is stored exactly when the same number, written [D] with
    some of its trailing zeros moved into the exponent, is within the digits
    of the column. *)
Lemma store_shifted p s d D :
  (coefficient (ddigits d) = 0
   ∨ - Z.of_nat s ≤ dexp D
     ∧ Z.of_nat (length (ddigits D)) + dexp D + Z.of_nat s ≤ Z.of_nat p
     ∧ ∃ k : nat, dexp D = dexp d + Z.of_nat k
         ∧ coefficient (ddigits d) = coefficient (ddigits D) * 10 ^ Z.of_nat k) →
  ∃ u, store_decimal p s d = Some u
       ∧ Z.abs u < 10 ^ Z.of_nat p
       ∧ (0 ≤ dexp d + Z.of_nat s → u = signed_coefficient d * 10 ^ (dexp d + Z.of_nat s))
       ∧ (dexp d + Z.of_nat s < 0 →
          signed_coefficient d = u * 10 ^ (- (dexp d + Z.of_nat s))).
Proof.
  intros Hshift.
  pose proof (coefficient_bounds (ddigits D)) as HC.
  assert (0 < 10 ^ Z.of_nat p) as Hp by (apply Z.pow_pos_nonneg; lia).
  unfold store_decimal. rewrite signed_coefficient_sign.
  set (σ := if dsign d then -1 else 1).
  assert (σ = 1 ∨ σ = -1) as Hσ by (unfold σ; destruct (dsign d); auto).
  set (K := dexp d + Z.of_nat s).
  destruct Hshift as [Hz|(Hlo & Hhi & k & He & Hc)].
  - (* zero *)
    rewrite Hz. rewrite Z.mul_0_r.
    exists 0. destruct (Z.leb_spec 0 K) as [HK|HK].
    + rewrite Z.mul_0_l. change (Z.abs 0) with 0.
      destruct (Z.ltb_spec 0 (10 ^ Z.of_nat p)); [|lia].
      repeat split; intros; lia.
    + rewrite Z.mod_0_l by (apply Z.pow_nonzero; lia). change (0 =? 0) with true.
      cbv iota. rewrite Z.div_0_l by (apply Z.pow_nonzero; lia).
      change (Z.abs 0) with 0.
      destruct (Z.ltb_spec 0 (10 ^ Z.of_nat p)); [|lia].
      repeat split; intros; lia.
  - (* the normalized coefficient, shifted *)
    set (C := coefficient (ddigits D)) in *.
    set (len := Z.of_nat (length (ddigits D))) in *.
    set (a := dexp D + Z.of_nat s).
    assert (0 ≤ a) as Ha by (unfold a; lia).
    assert (C * 10 ^ a < 10 ^ Z.of_nat p) as Hbound.
    { apply Z.lt_le_trans with (10 ^ len * 10 ^ a).
      - apply Z.mul_lt_mono_pos_r; [apply Z.pow_pos_nonneg; lia | lia].
      - rewrite <- Z.pow_add_r by (unfold len; lia).
        apply Z.pow_le_mono_r; unfold len, a in *; lia. }
    assert (0 ≤ C * 10 ^ a) as Hnn
      by (apply Z.mul_nonneg_nonneg; [lia | apply Z.pow_nonneg; lia]).
    assert (Z.abs (σ * (C * 10 ^ a)) < 10 ^ Z.of_nat p) as Habs
      by (destruct Hσ as [-> | ->]; lia).
    exists (σ * (C * 10 ^ a)). rewrite Hc.
    destruct (Z.leb_spec 0 K) as [HK|HK].
    + assert (σ * (C * 10 ^ Z.of_nat k) * 10 ^ K = σ * (C * 10 ^ a)) as ->.
      { replace a with (Z.of_nat k + K) by (unfold a, K; lia).
        rewrite Z.pow_add_r by lia. lia. }
      destruct (Z.ltb_spec (Z.abs (σ * (C * 10 ^ a))) (10 ^ Z.of_nat p)); [|lia].
      split; [done|]. split; [done|]. split; [|lia].
      intros _. replace a with (Z.of_nat k + K) by (unfold a, K; lia).
      rewrite Z.pow_add_r by lia. lia.
    + assert (σ * (C * 10 ^ Z.of_nat k) = σ * (C * 10 ^ a) * 10 ^ (- K)) as Hsplit.
      { replace (Z.of_nat k) with (a + - K) by (unfold a, K; lia).
        rewrite Z.pow_add_r by lia. lia. }
      rewrite Hsplit.
      rewrite Z.mod_mul by (apply Z.pow_nonzero; lia).
      change (0 =? 0) with true. cbv iota.
      rewrite Z.div_mul by (apply Z.pow_nonzero; lia).
      destruct (Z.ltb_spec (Z.abs (σ * (C * 10 ^ a))) (10 ^ Z.of_nat p)); [|lia].
      split; [done|]. split; [done|]. split; [lia | done].
Qed.

(** What is read back denotes the number that was stored. *)
Lemma load_store_eq p s d u :
  Z.abs u < 10 ^ Z.of_nat p →
  (0 ≤ dexp d + Z.of_nat s → u = signed_coefficient d * 10 ^ (dexp d + Z.of_nat s)) →
  (dexp d + Z.of_nat s < 0 → signed_coefficient d = u * 10 ^ (- (dexp d + Z.of_nat s))) →
  decimal_eqb (load_decimal p s u) d = true.
Proof.
  intros Hu Hpos Hneg. unfold decimal_eqb.
  rewrite (load_signed_coefficient p s u Hu).
  change (dexp (load_decimal p s u)) with (- Z.of_nat s).
  apply Z.eqb_eq.
  destruct (Z.le_gt_cases 0 (dexp d + Z.of_nat s)) as [HK|HK].
  - rewrite Z.min_l by lia.
    replace (- Z.of_nat s - - Z.of_nat s) with 0 by lia.
    replace (dexp d - - Z.of_nat s) with (dexp d + Z.of_nat s) by lia.
    rewrite (Hpos HK). simpl. lia.
  - rewrite Z.min_r by lia.
    replace (dexp d - dexp d) with 0 by lia.
    replace (- Z.of_nat s - dexp d) with (- (dexp d + Z.of_nat s)) by lia.
    rewrite (Hneg ltac:(lia)). simpl. lia.
Qed.

(** A value within the precision of a column is stored exactly. *)
Lemma within_precision_stored p s d :
  (s ≤ p)%nat → within_precision p s d = true →
  ∃ u, store_decimal p s d = Some u
       ∧ Z.abs u < 10 ^ Z.of_nat p
       ∧ (0 ≤ dexp d + Z.of_nat s → u = signed_coefficient d * 10 ^ (dexp d + Z.of_nat s))
       ∧ (dexp d + Z.of_nat s < 0 →
          signed_coefficient d = u * 10 ^ (- (dexp d + Z.of_nat s))).
Proof.
  intros Hsp Hw. unfold within_precision in Hw.
  apply counts_bounds in Hw as [Hlo Hhi]; [|done].
  apply (store_shifted p s d (strip_trailing d)).
  destruct (strip_trailing_spec d) as [(Hz & _)|(_ & k & r & _ & He & _ & Hc)];
    [by left|right].
  split; [done|]. split; [done|]. eauto.
Qed.

(** A decimal that the context holds as it is, and that passes the digit
    checks of a column, is within the precision of the column. *)
Lemma accepted_exact_within p s d :
  (s < p)%nat → check_decimal (Some p) (Some s) d = None →
  exact_in_context d = true → within_precision p s d = true.
Proof.
  intros Hsp Hchk Hexact. unfold within_precision.
  apply counts_bounds; [lia|].
  apply check_decimal_accepted in Hchk as [Hdec Hwhole]; [|lia].
  destruct (strip_trailing_spec d) as [(Hz & -> & ->)|(Hnz & k0 & r0 & Ht & -> & Hlen & _)].
  { cbn [length]. lia. }
  destruct (measured_exact d Hexact) as [Hz|(k & He & Hlenm & _ & Hmax)]; [done|].
  specialize (Hmax k0 r0 Ht). lia.
Qed.

(** C3: [completion_percentage] is declared with at most 5 digits and 2
    decimal places; every decimal within that precision, and so every decimal
    that validation accepts for the attribute with no digit rounded away, is
    stored, and what is read back has at most 5 digits, exactly two decimal
    places, and is equal as a number to what was stored. *)
Theorem completion_percentage_round_trip (f : field) (d : decimal) :
  get_field HeroDiaryProgress "completion_percentage" = Some f →
  within_precision 5 2 d = true
  ∨ (validate_value f (VDecimal d) = None ∧ exact_in_context d = true) →
  arg_max_digits (fargs f) = Some 5%nat
  ∧ arg_decimal_places (fargs f) = Some 2%nat
  ∧ ∃ u, store_decimal 5 2 d = Some u
         ∧ dexp (load_decimal 5 2 u) = -2
         ∧ (length (ddigits (load_decimal 5 2 u)) ≤ 5)%nat
         ∧ decimal_eqb (load_decimal 5 2 u) d = true.
Proof.
  intros Hf Hd. vm_compute in Hf. injection Hf as <-.
  split; [reflexivity|]. split; [reflexivity|].
  assert (within_precision 5 2 d = true) as Hw.
  { destruct Hd as [Hw|[Hv Hexact]]; [done|].
    apply accepted_exact_within; [lia | exact Hv | done]. }
  destruct (within_precision_stored 5 2 d ltac:(lia) Hw) as (u & Hst & Hu & Hpos & Hneg).
  exists u. split; [done|]. split; [reflexivity|]. split.
  - unfold load_decimal. cbn [ddigits]. apply digits_of_length; lia.
  - by apply (load_store_eq 5 2 d u).
Qed.

Lemma completion_percentage_round_trip_witness :
  ∃ u, store_decimal 5 2 (Dec false [d7; d5; d5; d0] (-2)) = Some u
       ∧ dexp (load_decimal 5 2 u) = -2
       ∧ (length (ddigits (load_decimal 5 2 u)) ≤ 5)%nat
       ∧ decimal_eqb (load_decimal 5 2 u) (Dec false [d7; d5; d5; d0] (-2)) = true.
Proof.
  apply (completion_percentage_round_trip
           (Fld "completion_percentage" (Plain t_Decimal)
              [kw_default (VDecimal (Dec false [d0] 0)); kw_max_digits 5;
               kw_decimal_places 2])
           (Dec false [d7; d5; d5; d0] (-2)));
    [reflexivity | left; reflexivity].
Defined.

Example store_default_percentage :
  store_decimal 5 2 (Dec false [d0] 0) = Some 0
  ∧ load_decimal 5 2 0 = Dec false [d0] (-2)
  ∧ decimal_eqb (Dec false [d0] (-2)) (Dec false [d0] 0) = true.
Proof. repeat split; reflexivity. Qed.

Example store_three_places_refused :
  validate_value (Fld "completion_percentage" (Plain t_Decimal)
                    [kw_default (VDecimal (Dec false [d0] 0)); kw_max_digits 5;
                     kw_decimal_places 2])
                 (VDecimal (Dec false [d1; d2; d5] (-3))) = Some decimal_max_places
  ∧ store_decimal 5 2 (Dec false [d1; d2; d5] (-3)) = None.
Proof. split; reflexivity. Qed.

Example store_trailing_zero_kept :
  validate_value (Fld "completion_percentage" (Plain t_Decimal)
                    [kw_default (VDecimal (Dec false [d0] 0)); kw_max_digits 5;
                     kw_decimal_places 2])
                 (VDecimal (Dec false [d1; d2; d0] (-3))) = None
  ∧ store_decimal 5 2 (Dec false [d1; d2; d0] (-3)) = Some 12.
Proof. split; reflexivity. Qed.

(** * Further properties of the schema *)

(** ** Defaults and accepted instances *)

Lemma first_arg_elem {A} (g : field_arg → option A) args x :
  first_arg g args = Some x → ∃ a, a ∈ args ∧ g a = Some x.
Proof.
  unfold first_arg. intros Hh.
  assert (x ∈ omap g args) as Hin.
  { destruct (omap g args) as [|y l]; [done|].
    simpl in Hh. injection Hh as ->. apply list_elem_of_here. }
  apply list_elem_of_omap in Hin as (a & Ha & Hg). eauto.
Qed.

Lemma field_default_cases now args v :
  field_default now args = Some v →
  kw_default v ∈ args ∨ (kw_default_factory_utcnow ∈ args ∧ v = VDatetime now).
Proof.
  intros (a & Ha & Hg)%first_arg_elem.
  destruct a; try discriminate Hg; injection Hg as <-; auto.
Qed.

(** Every default written in the schema is a value its own attribute
    accepts, and the clock is a default of [datetime] attributes only. *)
Lemma schema_defaults_checked :
  forallb (λ m, forallb (λ f, forallb (λ a,
      match a with
      | kw_default v => bool_decide (validate_value f v = None)
      | kw_default_factory_utcnow => bool_decide (fannot f = Plain t_datetime)
      | _ => true
      end) (fargs f)) (fields m)) schema = true.
Proof. vm_compute. reflexivity. Qed.

Lemma default_accepted now m f v :
  m ∈ schema → f ∈ fields m → field_default now (fargs f) = Some v →
  validate_value f v = None.
Proof.
  intros Hm Hf Hd. pose proof schema_defaults_checked as Hall.
  rewrite forallb_forall in Hall.
  specialize (Hall m (proj1 (list_elem_of_In _ _) Hm)).
  rewrite forallb_forall in Hall.
  specialize (Hall f (proj1 (list_elem_of_In _ _) Hf)).
  rewrite forallb_forall in Hall.
  destruct (field_default_cases now _ v Hd) as [Ha|[Ha ->]];
    specialize (Hall _ (proj1 (list_elem_of_In _ _) Ha)); simpl in Hall;
    apply bool_decide_eq_true in Hall.
  - exact Hall.
  - unfold validate_value. rewrite Hall. reflexivity.
Qed.

(** X1: a default declared in the schema satisfies the type and the
    bounds of the attribute it belongs to. *)
Theorem declared_default_valid now m f v :
  m ∈ schema → f ∈ fields m → field_default now (fargs f) = Some v →
  validate_value f v = None.
Proof. intros Hm Hf Hd. exact (default_accepted now m f v Hm Hf Hd). Qed.

Lemma declared_default_valid_witness :
  validate_value (Fld "strength" (Plain t_int) [kw_default (VInt 1); kw_ge 1; kw_le 5])
                 (VInt 1) = None.
Proof.
  apply (declared_default_valid 0 TermConnection);
    [unfold schema; elem_here | simpl; elem_here | reflexivity].
Defined.

Lemma validate_fields_dom now fs kwargs es r k :
  validate_fields now fs kwargs = (es, r) → is_Some (r !! k) → k ∈ fname <$> fs.
Proof.
  revert es r. induction fs as [|f0 fs IH]; intros es r Hv Hk.
  - simpl in Hv. injection Hv as <- <-. rewrite lookup_empty in Hk.
    by destruct Hk.
  - simpl in Hv. destruct (validate_fields now fs kwargs) as [es' r'] eqn:Hfs.
    rewrite fmap_cons. apply elem_of_cons.
    destruct (validate_field now f0 kwargs) as [e|v]; injection Hv as <- <-.
    + right. by eapply IH.
    + destruct (decide (fname f0 = k)) as [->|Hne]; [by left|].
      right. rewrite lookup_insert_ne in Hk by done. by eapply IH.
Qed.

Lemma accepted_values_valid now m kwargs r :
  m ∈ schema → model_validate now m kwargs = Ok r →
  ∀ f, f ∈ fields m → ∃ v, r !! fname f = Some v ∧ validate_value f v = None.
Proof.
  intros Hm Hr f Hf.
  pose proof (model_validate_accepts now kwargs m r f
                (schema_names_NoDup m Hm) Hr Hf) as Hacc.
  destruct (kwargs !! fname f) as [v|].
  - destruct Hacc as [Hv Hrow]. eauto.
  - destruct Hacc as (v & Hd & Hrow). exists v. split; [done|].
    by eapply default_accepted.
Qed.

Lemma accepted_dom now m kwargs r :
  m ∈ schema → model_validate now m kwargs = Ok r →
  ∀ k, is_Some (r !! k) ↔ k ∈ fname <$> fields m.
Proof.
  intros Hm Hr k. split.
  - unfold model_validate in Hr.
    destruct (validate_fields now (fields m) kwargs) as [es r'] eqn:Hfs.
    destruct es; [|done]. injection Hr as ->.
    by eapply validate_fields_dom.
  - intros (f & -> & Hf)%list_elem_of_fmap.
    destruct (accepted_values_valid now m kwargs r Hm Hr f Hf) as (v & Hv & _). eauto.
Qed.

Lemma valid_not_none f v :
  validate_value f v = None → is_optional (fannot f) = false → v ≠ VNone.
Proof. intros Hv Hopt ->. unfold validate_value in Hv. by rewrite Hopt in Hv. Qed.

(** X2: an accepted instance has exactly the attributes of its class
    (names that are not attributes are dropped), each holding a value its
    declaration accepts; an attribute that is not [Optional] is never null. *)
Theorem accepted_instance_well_formed now m kwargs r :
  m ∈ schema → model_validate now m kwargs = Ok r →
  (∀ k, is_Some (r !! k) ↔ k ∈ fname <$> fields m)
  ∧ (∀ f, f ∈ fields m →
       ∃ v, r !! fname f = Some v ∧ validate_value f v = None
            ∧ (is_optional (fannot f) = false → v ≠ VNone)).
Proof.
  intros Hm Hr. split; [by eapply accepted_dom|].
  intros f Hf.
  destruct (accepted_values_valid now m kwargs r Hm Hr f Hf) as (v & Hrow & Hv).
  exists v. split; [done|]. split; [done|]. by apply valid_not_none.
Qed.

Lemma accepted_instance_well_formed_witness :
  is_Some (accepted (model_validate (at_time 0) User (user_kwargs "ana")) !! "is_teacher")
  ∧ ¬ is_Some (accepted (model_validate (at_time 0) User
                   (<["nickname" := VStr "a"]> (user_kwargs "ana"))) !! "nickname").
Proof.
  assert (User ∈ schema) as Hm by (unfold schema; elem_here).
  split.
  - assert (model_validate (at_time 0) User (user_kwargs "ana")
            = Ok (accepted (model_validate (at_time 0) User (user_kwargs "ana")))) as Hr
      by (apply is_Ok_accepted; vm_compute; reflexivity).
    apply (proj1 (accepted_instance_well_formed (at_time 0) User _ _ Hm Hr)).
    simpl. elem_here.
  - assert (model_validate (at_time 0) User (<["nickname" := VStr "a"]> (user_kwargs "ana"))
            = Ok (accepted (model_validate (at_time 0) User
                              (<["nickname" := VStr "a"]> (user_kwargs "ana"))))) as Hr
      by (apply is_Ok_accepted; vm_compute; reflexivity).
    intros Hk.
    apply (proj1 (accepted_instance_well_formed (at_time 0) User _ _ Hm Hr)) in Hk.
    simpl in Hk.
    repeat (apply elem_of_cons in Hk as [Hk|Hk]; [discriminate Hk|]).
    by apply elem_of_nil in Hk.
Defined.

Lemma validate_fields_again now fs kwargs (r0 R : row) :
  NoDup (fname <$> fs) →
  validate_fields now fs kwargs = ([], r0) →
  (∀ f, f ∈ fs → ∃ v, R !! fname f = Some v ∧ r0 !! fname f = Some v
                      ∧ validate_value f v = None) →
  validate_fields now fs R = ([], r0).
Proof.
  revert r0. induction fs as [|f0 fs IH]; intros r0 Hnd Hv Hall; [done|].
  simpl in Hv, Hnd. apply NoDup_cons in Hnd as [Hfresh Hnd].
  destruct (validate_fields now fs kwargs) as [es r1] eqn:Hfs.
  destruct (validate_field now f0 kwargs) as [e|v0] eqn:Hf0; [done|].
  injection Hv as -> <-. simpl.
  rewrite (IH r1 Hnd eq_refl).
  - destruct (Hall f0 (list_elem_of_here _ _)) as (v & HR & Hr0 & Hval).
    rewrite lookup_insert_eq in Hr0. injection Hr0 as ->.
    unfold validate_field. by rewrite HR, Hval.
  - intros f Hf. destruct (Hall f (list_elem_of_further _ _ _ Hf)) as (v & HR & Hr0 & Hval).
    exists v. split; [done|]. split; [|done].
    rewrite lookup_insert_ne in Hr0; [done|].
    intros Heq. apply Hfresh. rewrite Heq. by apply list_elem_of_fmap_2.
Qed.

(** X3: validating an accepted instance again accepts it and returns it
    unchanged. *)
Theorem model_validate_idempotent now m kwargs r :
  m ∈ schema → model_validate now m kwargs = Ok r → model_validate now m r = Ok r.
Proof.
  intros Hm Hr.
  pose proof (accepted_values_valid now m kwargs r Hm Hr) as Hall.
  unfold model_validate in *.
  destruct (validate_fields now (fields m) kwargs) as [es r'] eqn:Hfs.
  destruct es; [|done]. injection Hr as ->.
  rewrite (validate_fields_again now (fields m) kwargs r r
             (schema_names_NoDup m Hm) Hfs); [done|].
  intros f Hf. destruct (Hall f Hf) as (v & Hrow & Hv). eauto.
Qed.

Lemma model_validate_idempotent_witness :
  is_Ok (model_validate (at_time 0) User (accepted (model_validate (at_time 0) User (user_kwargs "ana"))))
  = true.
Proof.
  assert (User ∈ schema) as Hm by (unfold schema; elem_here).
  assert (model_validate (at_time 0) User (user_kwargs "ana")
          = Ok (accepted (model_validate (at_time 0) User (user_kwargs "ana")))) as Hr
    by (apply is_Ok_accepted; vm_compute; reflexivity).
  rewrite (model_validate_idempotent (at_time 0) User _ _ Hm Hr). reflexivity.
Defined.

(** ** Bounds on integers, strings and decimals *)

(** The attributes declared with [gt] are plain integers. *)
Lemma schema_gt_checked :
  forallb (λ m, forallb (λ f,
      match arg_gt (fargs f) with
      | Some _ => bool_decide (fannot f = Plain t_int)
      | None => true
      end) (fields m)) schema = true.
Proof. vm_compute. reflexivity. Qed.

(** X4: for an attribute declared with [gt=z], a supplied integer that is
    not greater than [z] makes validation fail, and in every accepted
    instance the attribute is an integer greater than [z]. *)
Theorem gt_attribute_greater now m f z kwargs :
  m ∈ schema → f ∈ fields m → arg_gt (fargs f) = Some z →
  (∀ n, kwargs !! fname f = Some (VInt n) → n ≤ z →
     ∃ es, model_validate now m kwargs = Err es ∧ (fname f, greater_than) ∈ es)
  ∧ (∀ r, model_validate now m kwargs = Ok r →
     ∃ n, r !! fname f = Some (VInt n) ∧ z < n).
Proof.
  intros Hm Hf Hz.
  assert (fannot f = Plain t_int) as Hann.
  { pose proof schema_gt_checked as Hall. rewrite forallb_forall in Hall.
    specialize (Hall m (proj1 (list_elem_of_In _ _) Hm)).
    rewrite forallb_forall in Hall.
    specialize (Hall f (proj1 (list_elem_of_In _ _) Hf)).
    rewrite Hz in Hall. by apply bool_decide_eq_true in Hall. }
  assert (∀ v, validate_value f v = None → ∃ n, v = VInt n ∧ z < n) as Hval.
  { intros v. unfold validate_value. rewrite Hann. simpl.
    destruct v as [|b|n|s|d|t|j]; simpl; try discriminate.
    rewrite Hz. simpl. destruct (Z.ltb_spec z n); simpl; [eauto | discriminate]. }
  split.
  - intros n Hk Hn.
    assert (validate_value f (VInt n) = Some greater_than) as Hv.
    { unfold validate_value. rewrite Hann. simpl. rewrite Hz. simpl.
      destruct (Z.ltb_spec z n); [lia | reflexivity]. }
    destruct (model_validate_rejects now kwargs m f _ _ Hf Hk Hv) as (es & ? & ? & _).
    eauto.
  - intros r Hr.
    destruct (accepted_values_valid now m kwargs r Hm Hr f Hf) as (v & Hrow & Hv).
    destruct (Hval v Hv) as (n & -> & Hn). eauto.
Qed.

Lemma gt_attribute_greater_witness :
  ∃ es, model_validate (at_time 0) QuizLevel (<["level_number" := VInt 0]> (level_kwargs [])) = Err es
        ∧ ("level_number", greater_than) ∈ es.
Proof.
  apply (proj1 (gt_attribute_greater (at_time 0) QuizLevel
                  (Fld "level_number" (Plain t_int) [kw_gt 0]) 0
                  (<["level_number" := VInt 0]> (level_kwargs []))
                  ltac:(unfold schema; elem_here) ltac:(simpl; elem_here) eq_refl) 0);
    [vm_compute; reflexivity | lia].
Defined.

Lemma validate_fields_update now fs kwargs (r : row) k v :
  NoDup (fname <$> fs) →
  validate_fields now fs kwargs = ([], r) →
  (∀ f, f ∈ fs → fname f = k → validate_value f v = None) →
  validate_fields now fs (<[k := v]> kwargs)
  = ([], if decide (k ∈ fname <$> fs) then <[k := v]> r else r).
Proof.
  revert r. induction fs as [|f0 fs IH]; intros r Hnd Hv Hall.
  - simpl in Hv. injection Hv as <-.
    destruct (decide (k ∈ fname <$> [])) as [Hin|_]; [|done].
    by apply elem_of_nil in Hin.
  - simpl in Hv, Hnd. apply NoDup_cons in Hnd as [Hfresh Hnd].
    destruct (validate_fields now fs kwargs) as [es r1] eqn:Hfs.
    destruct (validate_field now f0 kwargs) as [e|v0] eqn:Hf0; [done|].
    injection Hv as -> <-. cbn [validate_fields].
    rewrite (IH r1 Hnd eq_refl)
      by (intros f Hf; apply Hall; by apply list_elem_of_further).
    unfold validate_field in *.
    destruct (decide (fname f0 = k)) as [Heq|Hne].
    + rewrite Heq, lookup_insert_eq.
      rewrite (Hall f0 (list_elem_of_here _ _) Heq).
      rewrite Heq in Hfresh.
      destruct (decide (k ∈ fname <$> fs)) as [Hin|_]; [contradiction|].
      destruct (decide (k ∈ fname <$> f0 :: fs)) as [_|Hnin].
      * by rewrite insert_insert_eq.
      * exfalso. apply Hnin. rewrite fmap_cons, Heq. apply list_elem_of_here.
    + rewrite lookup_insert_ne by done. rewrite Hf0.
      destruct (decide (k ∈ fname <$> fs)) as [Hin|Hnin];
        destruct (decide (k ∈ fname <$> f0 :: fs)) as [Hin'|Hnin'].
      * by rewrite insert_insert_ne.
      * exfalso. apply Hnin'. rewrite fmap_cons. by apply list_elem_of_further.
      * exfalso. rewrite fmap_cons in Hin'.
        apply elem_of_cons in Hin' as [?|?]; congruence.
      * done.
Qed.

Lemma NoDup_names_inj (fs : list field) f f' :
  NoDup (fname <$> fs) → f ∈ fs → f' ∈ fs → fname f = fname f' → f = f'.
Proof.
  induction fs as [|f0 fs IH]; intros Hnd Hf Hf' Heq.
  - by apply elem_of_nil in Hf.
  - simpl in Hnd. apply NoDup_cons in Hnd as [Hfresh Hnd].
    apply elem_of_cons in Hf as [->|Hf]; apply elem_of_cons in Hf' as [->|Hf'].
    + done.
    + exfalso. apply Hfresh. rewrite Heq. by apply list_elem_of_fmap_2.
    + exfalso. apply Hfresh. rewrite <- Heq. by apply list_elem_of_fmap_2.
    + by apply IH.
Qed.

(** X5: validation goes attribute by attribute: in an accepted set of
    arguments, replacing the value of one attribute by another value that its
    declaration accepts is accepted again, and changes that attribute only. *)
Theorem model_validate_update now m kwargs r f v :
  m ∈ schema → f ∈ fields m → model_validate now m kwargs = Ok r →
  validate_value f v = None →
  model_validate now m (<[fname f := v]> kwargs) = Ok (<[fname f := v]> r).
Proof.
  intros Hm Hf Hr Hv. unfold model_validate in *.
  destruct (validate_fields now (fields m) kwargs) as [es r'] eqn:Hfs.
  destruct es; [|done]. injection Hr as ->.
  pose proof (schema_names_NoDup m Hm) as Hnd.
  rewrite (validate_fields_update now (fields m) kwargs r (fname f) v Hnd Hfs).
  - rewrite decide_True by (by apply list_elem_of_fmap_2). done.
  - intros f' Hf' Heq.
    assert (f' = f) as -> by (by apply (NoDup_names_inj (fields m))).
    done.
Qed.

Lemma model_validate_update_witness :
  is_Ok (model_validate (at_time 0) User (<["username" := VStr ""]> (user_kwargs "ana"))) = true.
Proof.
  assert (User ∈ schema) as Hm by (unfold schema; elem_here).
  assert (model_validate (at_time 0) User (user_kwargs "ana")
          = Ok (accepted (model_validate (at_time 0) User (user_kwargs "ana")))) as Hr
    by (apply is_Ok_accepted; vm_compute; reflexivity).
  pose proof (model_validate_update (at_time 0) User _ _
                (Fld "username" (Plain t_str) [kw_max_length 50; kw_unique; kw_index])
                (VStr "") Hm ltac:(simpl; elem_here) Hr eq_refl) as Hnew.
  cbn [fname] in Hnew. rewrite Hnew. reflexivity.
Defined.

(** X6: an attribute that is not [Optional] and has no default is
    required: when it is not supplied, validation fails and reports it
    missing, and no row is created. *)
Theorem required_attribute_missing now m f kwargs :
  f ∈ fields m → is_optional (fannot f) = false →
  field_default (now (fname f)) (fargs f) = None → kwargs !! fname f = None →
  ∃ es, model_validate now m kwargs = Err es ∧ (fname f, missing) ∈ es
        ∧ ∀ db db', create now db m kwargs ≠ inr db'.
Proof.
  intros Hf _ Hd Hk.
  assert (validate_field now f kwargs = inl missing) as Hmiss
    by (unfold validate_field; by rewrite Hk, Hd).
  pose proof (validate_fields_error now kwargs _ _ _ Hf Hmiss) as Herr.
  unfold create, model_validate.
  destruct (validate_fields now (fields m) kwargs) as [es r].
  simpl in Herr. destruct es as [|e0 es]; [by apply elem_of_nil in Herr|].
  exists (e0 :: es). split; [done|]. split; [done|].
  intros db db'. by destruct (tablename m).
Qed.

Lemma required_attribute_missing_witness :
  ∃ es, model_validate (at_time 0) User (delete "email" (user_kwargs "ana")) = Err es
        ∧ ("email", missing) ∈ es
        ∧ ∀ db db', create (at_time 0) db User (delete "email" (user_kwargs "ana")) ≠ inr db'.
Proof.
  apply (required_attribute_missing (at_time 0) User
           (Fld "email" (Plain t_str) [kw_max_length 255; kw_unique; kw_index]));
    [simpl; elem_here | reflexivity | reflexivity | vm_compute; reflexivity].
Defined.

(** The decimal attributes are declared with both digit bounds, the places
    fewer than the digits. *)
Lemma schema_decimal_checked :
  forallb (λ m, forallb (λ f,
      match arg_max_digits (fargs f), arg_decimal_places (fargs f) with
      | Some p, Some s => (s <? p)%nat
      | None, None => true
      | _, _ => false
      end) (fields m)) schema = true.
Proof. vm_compute. reflexivity. Qed.

(** X7: a decimal of at most 28 digits, with an exponent the context
    holds, that is accepted by an attribute declared with [max_digits=p,
    decimal_places=s] is a whole number [u] of units of 10^-s, with
    [|u| < 10^p]: it has no digit beyond the [s]-th decimal place, and its
    magnitude is below 10^(p-s).  (A decimal of more digits is measured after
    rounding to 28 digits, and can be accepted without being such a number:
    see [long_decimal_accepted].) *)
Theorem decimal_attribute_bounded m f p s d :
  m ∈ schema → f ∈ fields m →
  arg_max_digits (fargs f) = Some p → arg_decimal_places (fargs f) = Some s →
  validate_value f (VDecimal d) = None →
  exact_in_context d = true →
  ∃ u, Z.abs u < 10 ^ Z.of_nat p
       ∧ (0 ≤ dexp d + Z.of_nat s →
          u = signed_coefficient d * 10 ^ (dexp d + Z.of_nat s))
       ∧ (dexp d + Z.of_nat s < 0 →
          signed_coefficient d = u * 10 ^ (- (dexp d + Z.of_nat s))).
Proof.
  intros Hm Hf Hp Hs Hv Hexact.
  assert (s < p)%nat as Hsp.
  { pose proof schema_decimal_checked as Hall. rewrite forallb_forall in Hall.
    specialize (Hall m (proj1 (list_elem_of_In _ _) Hm)).
    rewrite forallb_forall in Hall.
    specialize (Hall f (proj1 (list_elem_of_In _ _) Hf)).
    rewrite Hp, Hs in Hall. by apply Nat.ltb_lt. }
  assert (check_decimal (Some p) (Some s) d = None) as Hchk.
  { unfold validate_value in Hv.
    destruct (check_type (base_type (fannot f)) (VDecimal d)); [done|].
    simpl in Hv. by rewrite Hp, Hs in Hv. }
  pose proof (accepted_exact_within p s d Hsp Hchk Hexact) as Hw.
  destruct (within_precision_stored p s d ltac:(lia) Hw) as (u & _ & Hu & Hpos & Hneg).
  eauto.
Qed.

Lemma decimal_attribute_bounded_witness :
  ∃ u, Z.abs u < 10 ^ 5
       ∧ (0 ≤ -1 + 3 → u = 15 * 10 ^ (-1 + 3))
       ∧ (-1 + 3 < 0 → 15 = u * 10 ^ (- (-1 + 3))).
Proof.
  apply (decimal_attribute_bounded ARModel
           (Fld "scale_factor" (Plain t_Decimal)
              [kw_default (VDecimal (Dec false [d1; d0] (-1))); kw_max_digits 5;
               kw_decimal_places 3])
           5 3 (Dec false [d1; d5] (-1)));
    [unfold schema; elem_here | simpl; elem_here | reflexivity | reflexivity
    | reflexivity | reflexivity].
Defined.

(** The decimal 1.00000000000000000000000000001, of 30 digits, is rounded
    to 1 before its digits are counted: the attribute accepts it, though it is
    not a whole number of hundredths and cannot be stored exactly. *)
Example long_decimal_accepted :
  let d := Dec false (d1 :: replicate 28 d0 ++ [d1])%list (-29) in
  validate_value (Fld "completion_percentage" (Plain t_Decimal)
                    [kw_default (VDecimal (Dec false [d0] 0)); kw_max_digits 5;
                     kw_decimal_places 2])
                 (VDecimal d) = None
  ∧ exact_in_context d = false
  ∧ within_precision 5 2 d = false
  ∧ store_decimal 5 2 d = None.
Proof. vm_compute. repeat split; reflexivity. Qed.

(** ** Keys and references in the states built by [create] *)








(** ** The shape of the schema *)




(** X13: every foreign key of the schema names the primary key [id], an
    integer like the referencing attribute, of a table declared before the
    table that holds the key: no table references itself or a later one, so
    the tables can be filled in the order of declaration. *)
Theorem foreign_key_target_declared_earlier m tm f t c :
  m ∈ schema → tablename m = Some tm → f ∈ fields m →
  arg_foreign_key (fargs f) = Some (t, c) →
  ∃ i j m' pk,
    table_index tm = Some i ∧ table_index t = Some j ∧ (j < i)%nat
    ∧ schema !! j = Some m' ∧ tablename m' = Some t
    ∧ pk ∈ primary_keys m' ∧ fname pk = c
    ∧ base_type (fannot pk) = base_type (fannot f).
Proof.
  intros Hm Ht Hf Hfk.
  assert (forallb (λ m, forallb (fk_resolves m) (fields m)) schema = true) as Hall
    by (vm_compute; reflexivity).
  rewrite forallb_forall in Hall.
  specialize (Hall m (proj1 (list_elem_of_In _ _) Hm)).
  rewrite forallb_forall in Hall.
  specialize (Hall f (proj1 (list_elem_of_In _ _) Hf)).
  unfold fk_resolves in Hall. rewrite Hfk, Ht in Hall.
  change (Some tm ≫= table_index) with (table_index tm) in Hall.
  destruct (table_index tm) as [i|]; [|done].
  destruct (list_find (λ m', tablename m' = Some t) schema) as [[j m']|] eqn:Hfind;
    [|done].
  apply andb_prop in Hall as [Hlt Hex].
  apply existsb_exists in Hex as (pk & Hpk & Hcond).
  apply andb_prop in Hcond as [Hname Hty].
  pose proof Hfind as Hfound. apply list_find_Some in Hfound as (Hj & Htab & _).
  apply Nat.ltb_lt in Hlt. apply String.eqb_eq in Hname.
  apply bool_decide_eq_true in Hty.
  exists i, j, m', pk.
  split; [reflexivity|]. split; [unfold table_index; by rewrite Hfind|].
  split; [exact Hlt|]. split; [exact Hj|]. split; [exact Htab|].
  split; [by apply list_elem_of_In|]. split; [exact Hname | exact Hty].
Qed.

Lemma foreign_key_target_declared_earlier_witness :
  ∃ i j m' pk,
    table_index "term_connections" = Some i
    ∧ table_index "vocabulary_terms" = Some j ∧ (j < i)%nat
    ∧ schema !! j = Some m' ∧ tablename m' = Some "vocabulary_terms"
    ∧ pk ∈ primary_keys m' ∧ fname pk = "id"
    ∧ base_type (fannot pk) = t_int.
Proof.
  apply (foreign_key_target_declared_earlier TermConnection "term_connections"
           (Fld "target_term_id" (Plain t_int) [kw_foreign_key "vocabulary_terms" "id"])
           "vocabulary_terms" "id");
    [unfold schema; elem_here | reflexivity | simpl; elem_here | reflexivity].
Defined.

(** ** Validation-only classes and their tables *)

Lemma same_bounds_validate f f' v :
  same_bounds f f' = true → v ≠ VNone → validate_value f' v = validate_value f v.
Proof.
  unfold same_bounds. intros H Hv.
  apply andb_prop in H as [H Hdp]. apply andb_prop in H as [H Hmd].
  apply andb_prop in H as [H Hle]. apply andb_prop in H as [H Hge].
  apply andb_prop in H as [H Hgt]. apply andb_prop in H as [Hty Hml].
  apply bool_decide_eq_true in Hty, Hml, Hgt, Hge, Hle, Hmd, Hdp.
  unfold validate_value, check_constraints.
  rewrite <- Hty, <- Hml, <- Hgt, <- Hge, <- Hle, <- Hmd, <- Hdp.
  by destruct v.
Qed.

(** X14: each attribute of a validation-only class is an attribute of its
    table class, with the same type and the same bounds: a non-null value is
    accepted by the one exactly when it is accepted by the other, with the
    same error otherwise. *)
Theorem create_shape_attribute_agrees c t f v :
  (c, t) ∈ create_shapes → f ∈ fields c → v ≠ VNone →
  ∃ f', f' ∈ fields t ∧ fname f' = fname f
        ∧ validate_value f' v = validate_value f v.
Proof.
  intros Hct Hf Hv.
  assert (forallb (λ p : model * model, forallb (λ f,
            match get_field p.2 (fname f) with
            | Some f' => same_bounds f f'
            | None => false
            end) (fields p.1)) create_shapes = true) as Hall
    by (vm_compute; reflexivity).
  rewrite forallb_forall in Hall.
  specialize (Hall (c, t) (proj1 (list_elem_of_In _ _) Hct)). simpl in Hall.
  rewrite forallb_forall in Hall.
  specialize (Hall f (proj1 (list_elem_of_In _ _) Hf)).
  unfold get_field in Hall.
  destruct (find _ (fields t)) as [f'|] eqn:Hfind; [|done].
  apply find_some in Hfind as [Hin Hname]. apply String.eqb_eq in Hname.
  exists f'. split; [by apply list_elem_of_In|]. split; [done|].
  by apply same_bounds_validate.
Qed.

Lemma create_shape_attribute_agrees_witness :
  ∃ f', f' ∈ fields HeroDiaryProgress ∧ fname f' = "entries_read"
        ∧ validate_value f' (VInt 3)
          = validate_value (Fld "entries_read" (Optional t_int) [kw_default VNone]) (VInt 3).
Proof.
  apply (create_shape_attribute_agrees HeroDiaryProgressUpdate HeroDiaryProgress
           (Fld "entries_read" (Optional t_int) [kw_default VNone]) (VInt 3));
    [unfold create_shapes; elem_here | simpl; elem_here | discriminate].
Defined.

Lemma validate_fields_all now fs (kwargs : row) :
  (∀ f, f ∈ fs → ∃ v, validate_field now f kwargs = inr v) →
  ∃ r, validate_fields now fs kwargs = ([], r).
Proof.
  induction fs as [|f0 fs IH]; intros Hall; [by eexists|].
  destruct IH as [r Hr]; [intros f Hf; apply Hall; by apply list_elem_of_further|].
  destruct (Hall f0 (list_elem_of_here _ _)) as [v Hv].
  simpl. rewrite Hr, Hv. by eexists.
Qed.

(** X15: what [UserCreate] accepts, [User] accepts: the accepted instance
    of [UserCreate] validates as a [User], keeping every attribute, with a
    null [id]; [created_at] and [updated_at] each hold the clock's own
    reading for that attribute, two readings that need not be equal. *)
Theorem user_create_feeds_user now now' kwargs r :
  model_validate now UserCreate kwargs = Ok r →
  ∃ r', model_validate now' User r = Ok r'
        ∧ (∀ k v, r !! k = Some v → r' !! k = Some v)
        ∧ r' !! "id" = Some VNone
        ∧ r' !! "created_at" = Some (VDatetime (now' "created_at"))
        ∧ r' !! "updated_at" = Some (VDatetime (now' "updated_at")).
Proof.
  intros Hr.
  assert (UserCreate ∈ schema) as Hc by (unfold schema; elem_here).
  pose proof (accepted_dom now UserCreate kwargs r Hc Hr) as Hdom.
  pose proof (accepted_values_valid now UserCreate kwargs r Hc Hr) as Hval.
  assert (∀ k, k ∉ fname <$> fields UserCreate → r !! k = None) as Hout.
  { intros k Hk. destruct (r !! k) eqn:Hrk; [|done].
    exfalso. apply Hk, Hdom. eauto. }
  assert (∀ k, k ∈ ["id"; "created_at"; "updated_at"] → r !! k = None) as Hnone.
  { intros k Hk. apply Hout. simpl. intros Hin.
    repeat (apply elem_of_cons in Hk as [->|Hk];
            [repeat (apply elem_of_cons in Hin as [Hin|Hin]; [discriminate|]);
             by apply elem_of_nil in Hin|]).
    by apply elem_of_nil in Hk. }
  (* the four attributes of [UserCreate], each accepted by [User] as well *)
  assert (∀ f f', f ∈ fields UserCreate → same_bounds f f' = true →
            fname f' = fname f → is_optional (fannot f) = false →
            ∃ v, r !! fname f = Some v ∧ validate_field now' f' r = inr v) as Hkeep.
  { intros f f' Hf Hsame Hname Hplain.
    destruct (Hval f Hf) as (v & Hrow & Hok).
    exists v. split; [done|]. unfold validate_field. rewrite Hname, Hrow.
    by rewrite (same_bounds_validate f f' v Hsame (valid_not_none f v Hok Hplain)), Hok. }
  destruct (Hkeep (Fld "username" (Plain t_str) [kw_max_length 50])
              (Fld "username" (Plain t_str) [kw_max_length 50; kw_unique; kw_index])
              ltac:(simpl; elem_here) eq_refl eq_refl eq_refl) as (v1 & H1 & E1).
  destruct (Hkeep (Fld "email" (Plain t_str) [kw_max_length 255])
              (Fld "email" (Plain t_str) [kw_max_length 255; kw_unique; kw_index])
              ltac:(simpl; elem_here) eq_refl eq_refl eq_refl) as (v2 & H2 & E2).
  destruct (Hkeep (Fld "full_name" (Plain t_str) [kw_max_length 100])
              (Fld "full_name" (Plain t_str) [kw_max_length 100])
              ltac:(simpl; elem_here) eq_refl eq_refl eq_refl) as (v3 & H3 & E3).
  destruct (Hkeep (Fld "is_teacher" (Plain t_bool) [kw_default (VBool false)])
              (Fld "is_teacher" (Plain t_bool) [kw_default (VBool false)])
              ltac:(simpl; elem_here) eq_refl eq_refl eq_refl) as (v4 & H4 & E4).
  cbn [fname] in H1, H2, H3, H4.
  eexists. split.
  - unfold model_validate. cbn [fields User validate_fields].
    rewrite E1, E2, E3, E4. unfold validate_field. cbn [fname fargs].
    rewrite !Hnone by elem_here. reflexivity.
  - split; [|by repeat split].
    intros k v Hk.
    assert (k ∈ fname <$> fields UserCreate) as Hin by (apply Hdom; eauto).
    simpl in Hin.
    repeat (apply elem_of_cons in Hin as [->|Hin];
            [simpl_map; congruence|]).
    by apply elem_of_nil in Hin.
Qed.

Lemma user_create_feeds_user_witness :
  ∃ r', model_validate two_readings User
          (accepted (model_validate (at_time 0) UserCreate (user_kwargs "ana")))
        = Ok r'
        ∧ (∀ k v, accepted (model_validate (at_time 0) UserCreate (user_kwargs "ana")) !! k = Some v →
                  r' !! k = Some v)
        ∧ r' !! "id" = Some VNone
        ∧ r' !! "created_at" = Some (VDatetime 0)
        ∧ r' !! "updated_at" = Some (VDatetime 1).
Proof.
  apply (user_create_feeds_user (at_time 0) two_readings (user_kwargs "ana")).
  apply is_Ok_accepted. vm_compute. reflexivity.
Defined.

(** ** Stored rows *)


